(** * realtime-mempool-alerts-ts: the rule matcher of [src/mempool_alerts.ts]

    A shallow embedding of the pure part of the watcher: [selectorOf],
    [weiToEth], [matchRules] and the alert record built by the
    [pending] handler of [main], together with the pieces of the
    JavaScript runtime these functions call (string primitives, the
    Number type as IEEE 754 binary64, [Number::toString]).

    Conventions.
    - A JavaScript string is a sequence of code units.  The embedding
      keeps the code units below 256 (Latin-1), which is Rocq's
      [string]; the data the program handles (hex strings, addresses)
      is ASCII.  On that range [length], [slice] and [toLowerCase] are
      exact.
    - A Number is a [spec_float] at precision 53 and [emax] 1024, with
      the operations of [SpecFloat] (round to nearest, ties to even).
    - A value that may be [undefined] or [null] is an [option]. *)

From Stdlib Require Import ZArith Lia Bool List String Ascii.
From Stdlib Require Import Permutation.
From Stdlib Require Import Floats.SpecFloat.
Import ListNotations.

Local Open Scope string_scope.
Local Open Scope Z_scope.

(* ------------------------------------------------------------------ *)
(** ** JavaScript strings *)

Module JSString.

(** [s.length] *)
Definition length (s : string) : Z := Z.of_nat (String.length s).

(** [s.slice(start, end)]: negative indices count from the end, both
    ends are clamped to the string. *)
Definition slice (s : string) (start end_ : Z) : string :=
  let len := length s in
  let from := if start <? 0 then Z.max (len + start) 0 else Z.min start len in
  let to := if end_ <? 0 then Z.max (len + end_) 0 else Z.min end_ len in
  substring (Z.to_nat from) (Z.to_nat (Z.max (to - from) 0)) s.

(** Simple lower-case mapping of one Latin-1 code unit: [A]-[Z] and the
    accented capitals U+00C0-U+00DE (U+00D7, the multiplication sign,
    apart) move up by 32; every other code unit is its own image. *)
Definition lowerUnit (c : ascii) : ascii :=
  let n := N_of_ascii c in
  if ((65 <=? n) && (n <=? 90))%N then ascii_of_N (n + 32)
  else if ((192 <=? n) && (n <=? 222) && negb (n =? 215))%N
       then ascii_of_N (n + 32)
  else c.

(** [s.toLowerCase()] *)
Fixpoint toLowerCase (s : string) : string :=
  match s with
  | EmptyString => EmptyString
  | String c r => String (lowerUnit c) (toLowerCase r)
  end.

(** [!s]: the empty string is the only falsy string. *)
Definition falsy (s : string) : bool :=
  match s with EmptyString => true | _ => false end.

(** [arr.includes(s)] on an array of strings. *)
Definition includes (arr : list string) (s : string) : bool :=
  existsb (String.eqb s) arr.

End JSString.

(** [a ?? b] *)
Definition nullish {A : Type} (a : option A) (b : A) : A :=
  match a with Some v => v | None => b end.

(* ------------------------------------------------------------------ *)
(** ** Selector extraction *)

(** [selectorOf(input)].  The argument is a string by its TypeScript
    type; at run time the test [!input] also catches [undefined] and
    [null], which is [None] here. *)
Definition selectorOf (input : option string) : string :=
  match input with
  | None => "0x00000000"
  | Some s =>
      if JSString.falsy s || (JSString.length s <? 10) then "0x00000000"
      else JSString.toLowerCase (JSString.slice s 0 10)
  end.

(* ------------------------------------------------------------------ *)
(** ** JavaScript Numbers (IEEE 754 binary64) *)

Module JSNumber.

Definition prec : Z := 53.
Definition emax : Z := 1024.

Abbreviation number := spec_float.

(** The Number nearest to an integer: [Number(z)] for a bigint [z], and
    the value of an integer literal. *)
Definition ofInteger (z : Z) : number := binary_normalize prec emax z 0 false.

(** The Number nearest to the positive fraction [a / b]: the value of a
    decimal literal. *)
Definition ofRatio (a b : Z) : number :=
  let '(q, e, l) := SFdiv_core_binary prec emax a 0 b 0 in
  binary_round_aux prec emax false q e l.

(** [x / y] *)
Definition div (x y : number) : number := SFdiv prec emax x y.

(** [x < y] *)
Definition ltb (x y : number) : bool := SFltb x y.

(** [x <= y] *)
Definition leb (x y : number) : bool := SFleb x y.

(** ToBoolean: [+0], [-0] and [NaN] are the falsy Numbers. *)
Definition truthy (x : number) : bool :=
  match x with
  | S754_zero _ | S754_nan => false
  | _ => true
  end.

(** Identity of two Numbers as values of the datatype. *)
Definition same (x y : number) : bool :=
  match x, y with
  | S754_zero a, S754_zero b => Bool.eqb a b
  | S754_infinity a, S754_infinity b => Bool.eqb a b
  | S754_nan, S754_nan => true
  | S754_finite a m e, S754_finite b m' e' =>
      Bool.eqb a b && Pos.eqb m m' && Z.eqb e e'
  | _, _ => false
  end.

(** [Math.floor(x)] *)
Definition floor (x : number) : number :=
  match x with
  | S754_finite s m e =>
      if 0 <=? e then x
      else
        let z := Z.shiftr (cond_Zopp s (Zpos m)) (- e) in
        if z =? 0 then S754_zero false else ofInteger z
  | _ => x
  end.

(** *** [Number::toString] in radix 10 *)

Fixpoint digitsOf (fuel : nat) (z : Z) (acc : string) : string :=
  match fuel with
  | O => acc
  | S f =>
      let acc' := String (ascii_of_N (48 + Z.to_N (z mod 10))) acc in
      if z <? 10 then acc' else digitsOf f (z / 10) acc'
  end.

(** The decimal digits of a non-negative integer. *)
Definition decimal (z : Z) : string :=
  digitsOf (S (Z.to_nat (Z.log2 z))) z EmptyString.

Fixpoint zeros (n : nat) : string :=
  match n with O => EmptyString | S n' => String "0" (zeros n') end.

(** The exact value of a positive finite Number, as a fraction. *)
Definition fraction (m : positive) (e : Z) : Z * Z :=
  if 0 <=? e then (Zpos m * 2 ^ e, 1) else (Zpos m, 2 ^ (- e)).

Fixpoint leadingZeros (fuel : nat) (a b : Z) (j : Z) : Z :=
  match fuel with
  | O => j
  | S f => if b <=? a * 10 ^ j then j else leadingZeros f a b (j + 1)
  end.

(** The integer [n] with [10^(n-1) <= a/b < 10^n]. *)
Definition decimalExponent (a b : Z) : Z :=
  if b <=? a then JSString.length (decimal (a / b))
  else 1 - leadingZeros (S (Z.to_nat (Z.log2 b))) a b 1.

(** [s * 10^(n-k)] as a fraction. *)
Definition scaled (s n k : Z) : Z * Z :=
  if k <=? n then (s * 10 ^ (n - k), 1) else (s, 10 ^ (k - n)).

(** Does [s * 10^(n-k)] denote the Number [x], with [s] of [k] digits? *)
Definition denotes (x : number) (k : Z) (c : Z * Z) : bool :=
  let '(s, n) := c in
  let '(a, b) := scaled s n k in
  (10 ^ (k - 1) <=? s) && (s <? 10 ^ k) && same (ofRatio a b) x.

(** [|s * 10^(n-k) - a/b|] as a fraction. *)
Definition distance (a b k : Z) (c : Z * Z) : Z * Z :=
  let '(s, n) := c in
  let '(a', b') := scaled s n k in
  (Z.abs (a' * b - a * b'), b' * b).

(** Of two candidates keep the one nearer to [a/b]; on a tie, the one
    whose digit string is even. *)
Definition nearer (a b k : Z) (c d : Z * Z) : Z * Z :=
  let '(p, q) := distance a b k c in
  let '(p', q') := distance a b k d in
  match p * q' ?= p' * q with
  | Lt => c
  | Gt => d
  | Eq => if Z.even (fst c) then c else d
  end.

Definition candidates (x : number) (a b k : Z) : list (Z * Z) :=
  let n0 := decimalExponent a b in
  let at_ (n : Z) :=
    let u := if k <=? n then a / (b * 10 ^ (n - k))
             else (a * 10 ^ (k - n)) / b in
    [(u, n); (u + 1, n)] in
  filter (denotes x k) (at_ n0 ++ at_ (n0 + 1)).

Fixpoint shortest (fuel : nat) (x : number) (a b k : Z) : option (Z * Z * Z) :=
  match fuel with
  | O => None
  | S f =>
      match candidates x a b k with
      | [] => shortest f x a b (k + 1)
      | c :: cs => let '(s, n) := fold_left (nearer a b k) cs c in Some (s, n, k)
      end
  end.

(** The rendering of the digits [s] ([k] of them) with decimal exponent
    [n]: steps 6 to 10 of [Number::toString]. *)
Definition render (s n k : Z) : string :=
  let ds := decimal s in
  if (-5 <=? n) && (n <=? 21) then
    if k <=? n then ds ++ zeros (Z.to_nat (n - k))
    else if 0 <? n then
      substring 0 (Z.to_nat n) ds ++ "." ++
      substring (Z.to_nat n) (Z.to_nat (k - n)) ds
    else "0." ++ zeros (Z.to_nat (- n)) ++ ds
  else
    let sign := if n - 1 <? 0 then "-" else "+" in
    let ex := "e" ++ sign ++ decimal (Z.abs (n - 1)) in
    if k =? 1 then ds ++ ex
    else substring 0 1 ds ++ "." ++ substring 1 (Z.to_nat (k - 1)) ds ++ ex.

(** Seventeen significant digits identify every binary64 value, so the
    search for the shortest digit string stops there. *)
Definition toStringPos (m : positive) (e : Z) : string :=
  let '(a, b) := fraction m e in
  match shortest 17 (S754_finite false m e) a b 1 with
  | Some (s, n, k) => render s n k
  | None => render a 1 1
  end.

(** [String(x)], which is what a template literal applies to a Number. *)
Definition toString (x : number) : string :=
  match x with
  | S754_nan => "NaN"
  | S754_zero _ => "0"
  | S754_infinity false => "Infinity"
  | S754_infinity true => "-Infinity"
  | S754_finite false m e => toStringPos m e
  | S754_finite true m e => "-" ++ toStringPos m e
  end.

End JSNumber.

Import JSNumber.

(* ------------------------------------------------------------------ *)
(** ** JSON.stringify, for the values an alert holds *)

Module JSON.

Inductive value :=
| VString (s : string)
| VNumber (x : number).

(** An object literal: its properties in the order they were written. *)
Definition object := list (string * value).

Definition hexDigit (n : N) : ascii :=
  if (n <? 10)%N then ascii_of_N (48 + n) else ascii_of_N (87 + n).

Definition backslash : ascii := ascii_of_N 92.
Definition dquote : ascii := ascii_of_N 34.

Definition escape (c : ascii) : string := String backslash (String c EmptyString).

(** QuoteJSONString on one code unit. *)
Definition quoteUnit (c : ascii) : string :=
  let n := N_of_ascii c in
  if (n =? 8)%N then escape "b"
  else if (n =? 9)%N then escape "t"
  else if (n =? 10)%N then escape "n"
  else if (n =? 12)%N then escape "f"
  else if (n =? 13)%N then escape "r"
  else if (n =? 34)%N then escape dquote
  else if (n =? 92)%N then escape backslash
  else if (n <? 32)%N then
    escape "u" ++ "00" ++
    String (hexDigit (n / 16)) (String (hexDigit (n mod 16)) EmptyString)
  else String c EmptyString.

Fixpoint quoteUnits (s : string) : string :=
  match s with
  | EmptyString => EmptyString
  | String c r => quoteUnit c ++ quoteUnits r
  end.

Definition quote (s : string) : string :=
  String dquote (quoteUnits s ++ String dquote EmptyString).

Definition isFinite (x : number) : bool :=
  match x with
  | S754_zero _ | S754_finite _ _ _ => true
  | _ => false
  end.

Definition stringifyValue (v : value) : string :=
  match v with
  | VString s => quote s
  | VNumber x => if isFinite x then toString x else "null"
  end.

Fixpoint members (o : object) : string :=
  match o with
  | [] => EmptyString
  | [(k, v)] => quote k ++ ":" ++ stringifyValue v
  | (k, v) :: rest => quote k ++ ":" ++ stringifyValue v ++ "," ++ members rest
  end.

(** [JSON.stringify(o)] *)
Definition stringify (o : object) : string := "{" ++ members o ++ "}".

End JSON.

(* ------------------------------------------------------------------ *)
(** ** The rule set, the transaction, the matcher *)

(** [type Rule]: every property is optional. *)
Record Rule := {
  minEth : option number;
  allowSelectors : option (list string);
  denySelectors : option (list string);
  watchRecipients : option (list string)
}.

(** [const RULES] *)
Definition RULES : Rule := {|
  minEth := Some (ofRatio 5 10);
  allowSelectors := Some [];
  denySelectors := Some ["0x095ea7b3"];
  watchRecipients := Some []
|}.

(** The properties of an ethers [TransactionResponse] the watcher reads.
    The ones it guards with [??] may be absent. *)
Record TransactionResponse := {
  hash : string;
  from : option string;
  to : option string;
  value : option Z;
  data : option string;
  nonce : number
}.

(** [weiToEth(wei)]: [Number(wei) / 1e18]. *)
Definition weiToEth (wei : Z) : number :=
  div (ofInteger wei) (ofInteger (10 ^ 18)).

(** The object [matchRules] returns. *)
Record Verdict := { ok : bool; reason : list string }.

(** [arr.push(x)] on the array held in a local variable. *)
Definition push (arr : list string) (x : string) : list string := arr ++ [x].

(** [arr.length], as the condition of an [&&]: truthy when not zero. *)
Definition nonEmpty (arr : list string) : bool :=
  negb (Nat.eqb (List.length arr) 0).

(** [matchRules(tx, rules)] *)
Definition matchRules (tx : TransactionResponse) (rules : Rule) : Verdict :=
  let reasons : list string := [] in
  let sel := selectorOf (Some (nullish (data tx) "0x")) in
  let eth := weiToEth (nullish (value tx) 0) in
  let reasons :=
    match minEth rules with
    | Some m =>
        if truthy m && ltb eth m
        then push reasons ("value<" ++ toString m) else reasons
    | None => reasons
    end in
  let reasons :=
    match allowSelectors rules with
    | Some allow =>
        if nonEmpty allow && negb (JSString.includes allow sel)
        then push reasons ("!allowed:" ++ sel) else reasons
    | None => reasons
    end in
  let reasons :=
    match denySelectors rules with
    | Some deny =>
        if JSString.includes deny sel
        then push reasons ("denied:" ++ sel) else reasons
    | None => reasons
    end in
  let reasons :=
    match watchRecipients rules with
    | Some watch =>
        if nonEmpty watch &&
           negb (JSString.includes watch
                   (JSString.toLowerCase (nullish (to tx) EmptyString)))
        then push reasons "!watched:to" else reasons
    | None => reasons
    end in
  {| ok := Nat.eqb (List.length reasons) 0; reason := reasons |}.

(* ------------------------------------------------------------------ *)
(** ** The [pending] handler of [main] *)

(** What [provider.getTransaction(hash)] came to: it threw (or the
    promise was rejected), it found nothing, or it found a transaction. *)
Inductive Fetched :=
| Threw
| Nothing
| Found (tx : TransactionResponse).

(** The object literal [alert].  [now] is the time value [Date.now()]
    returned, in milliseconds. *)
Definition alertOf (tx : TransactionResponse) (now : Z) : JSON.object :=
  [ ("type", JSON.VString "mempool_alert");
    ("hash", JSON.VString (hash tx));
    ("from", JSON.VString (JSString.toLowerCase (nullish (from tx) EmptyString)));
    ("to", JSON.VString (JSString.toLowerCase (nullish (to tx) EmptyString)));
    ("eth", JSON.VNumber (weiToEth (nullish (value tx) 0)));
    ("selector", JSON.VString (selectorOf (Some (nullish (data tx) "0x"))));
    ("nonce", JSON.VNumber (nonce tx));
    ("ts", JSON.VNumber (floor (div (ofInteger now) (ofInteger 1000)))) ].

(** The body of the handler: the alert it builds, if it builds one. *)
Definition pendingAlert (r : Fetched) (now : Z) : option JSON.object :=
  match r with
  | Threw => None
  | Nothing => None
  | Found tx =>
      let v := matchRules tx RULES in
      if negb (ok v) then None else Some (alertOf tx now)
  end.

(** The lines the handler writes to standard output. *)
Definition onPending (r : Fetched) (now : Z) : list string :=
  match pendingAlert r now with
  | Some alert => [JSON.stringify alert]
  | None => []
  end.

(* ------------------------------------------------------------------ *)
(** ** The four checks, one by one

    Each check of [matchRules] taken alone: whether it fires, and the
    reason it gives.  The matcher is compared with these below. *)

Record Check := { fires : bool; message : string }.

Section Checks.
Variable tx : TransactionResponse.
Variable rules : Rule.

Definition selOf : string := selectorOf (Some (nullish (data tx) "0x")).
Definition ethOf : number := weiToEth (nullish (value tx) 0).

Definition valueCheck : Check :=
  match minEth rules with
  | Some m => {| fires := truthy m && ltb ethOf m;
                 message := "value<" ++ toString m |}
  | None => {| fires := false; message := "value<undefined" |}
  end.

Definition allowCheck : Check :=
  {| fires := match allowSelectors rules with
              | Some allow =>
                  nonEmpty allow && negb (JSString.includes allow selOf)
              | None => false
              end;
     message := "!allowed:" ++ selOf |}.

Definition denyCheck : Check :=
  {| fires := match denySelectors rules with
              | Some deny => JSString.includes deny selOf
              | None => false
              end;
     message := "denied:" ++ selOf |}.

Definition watchCheck : Check :=
  {| fires := match watchRecipients rules with
              | Some watch =>
                  nonEmpty watch &&
                  negb (JSString.includes watch
                          (JSString.toLowerCase (nullish (to tx) EmptyString)))
              | None => false
              end;
     message := "!watched:to" |}.

Definition checks : list Check :=
  [valueCheck; allowCheck; denyCheck; watchCheck].

End Checks.

(** Performing a list of checks in the order given, every one of them,
    pushing the reason of each one that fires. *)
Definition runChecks (cs : list Check) : Verdict :=
  let reasons :=
    fold_left (fun acc c => if fires c then push acc (message c) else acc) cs [] in
  {| ok := Nat.eqb (List.length reasons) 0; reason := reasons |}.

(* ------------------------------------------------------------------ *)
(** ** Rule categories, plain transfers, the rule sets of the scenarios *)

(** A rule category that is unset, or set to the empty array. *)
Definition unsetOrEmpty (o : option (list string)) : Prop :=
  o = None \/ o = Some [].

(** The data of a plain value transfer: absent, or a string of fewer
    than 10 code units (the empty string among them). *)
Definition plainTransfer (d : option string) : Prop :=
  match d with
  | None => True
  | Some s => JSString.length s < 10
  end.

(** A transaction that fails all four checks of [rulesAll]. *)
Definition txAllFail : TransactionResponse :=
  {| hash := "0x1"; from := Some "0xdef"; to := Some "0xBBB";
     value := Some (10 ^ 17); data := Some "0x095ea7b300";
     nonce := ofInteger 5 |}.

(** A rule set with its four categories in use. *)
Definition rulesAll : Rule :=
  {| minEth := Some (ofRatio 5 10);
     allowSelectors := Some ["0xa9059cbb"];
     denySelectors := Some ["0x095ea7b3"];
     watchRecipients := Some ["0xaaa"] |}.

(** A transfer call of two ether, which [RULES] accepts. *)
Definition txTransfer : TransactionResponse :=
  {| hash := "0x1"; from := Some "0xDEF"; to := Some "0xABC";
     value := Some (2 * 10 ^ 18); data := Some "0xA9059CBB00";
     nonce := ofInteger 5 |}.

(** A contract creation: no recipient. *)
Definition txCreate : TransactionResponse :=
  {| hash := "0x3"; from := Some "0xDEF"; to := None;
     value := Some (2 * 10 ^ 18); data := Some "0x6080604052";
     nonce := ofInteger 0 |}.

(** An approve call, which [RULES] denies. *)
Definition txApprove : TransactionResponse :=
  {| hash := "0x2"; from := Some "0xdef"; to := Some "0xabc";
     value := Some (2 * 10 ^ 18); data := Some "0x095EA7B300";
     nonce := ofInteger 6 |}.

(** One [key:value] member of a JSON object, the value already rendered. *)
Definition member (k v : string) : string := JSON.quote k ++ ":" ++ v.

(** A plain transfer of one ether. *)
Definition txPlain : TransactionResponse :=
  {| hash := "0x1"; from := Some "0xdef"; to := Some "0xabc";
     value := Some (10 ^ 18); data := Some "0x"; nonce := ofInteger 7 |}.

(** A rule set that allows [transfer(address,uint256)] only. *)
Definition rulesAllowTransfer : Rule :=
  {| minEth := None; allowSelectors := Some ["0xa9059cbb"];
     denySelectors := None; watchRecipients := None |}.

(** The decimal literal [0.5]. *)
Definition lit_0_5 : number := ofRatio 5 10.

(** [{minEth: 0.5, denySelectors: ["0x095ea7b3"]}] *)
Definition rulesValueDeny : Rule :=
  {| minEth := Some lit_0_5; allowSelectors := None;
     denySelectors := Some ["0x095ea7b3"]; watchRecipients := None |}.

(** [{watchRecipients: ["0xaaa"]}] *)
Definition rulesWatch : Rule :=
  {| minEth := None; allowSelectors := None; denySelectors := None;
     watchRecipients := Some ["0xaaa"] |}.

(* ------------------------------------------------------------------ *)
(** ** Rounding to nearest, ties to even: the reference

    What [SpecFloat] computes with shifts and sticky bits, written with
    quotients and remainders.  A positive real is given as
    [a / b * 2 ^ ex]. *)

(** The integer nearest to [a / b], the even one on a tie. *)
Definition RNE (a b : Z) : Z :=
  match 2 * (a mod b) ?= b with
  | Lt => a / b
  | Eq => if Z.even (a / b) then a / b else a / b + 1
  | Gt => a / b + 1
  end.

(** The record [mrs] of [SpecFloat] holds the integer part of [a / b],
    its round bit and its sticky bit. *)
Record locates (mrs : shr_record) (a b : Z) : Prop := {
  loc_m : shr_m mrs = a / b;
  loc_r : shr_r mrs = (b <=? 2 * (a mod b));
  loc_s : shr_s mrs = negb (a mod b =? 0) && negb (2 * (a mod b) =? b)
}.

(** A mantissa that reached [2^53] after rounding moves to the next
    binade. *)
Definition normal (m e : Z) : Z * Z :=
  if m =? 2 ^ 53 then (2 ^ 52, e + 1) else (m, e).

(** The Number of a mantissa and an exponent: zero, finite, or infinite
    when the exponent is out of range. *)
Definition pack (me : Z * Z) : number :=
  match fst me with
  | 0 => S754_zero false
  | Zpos p =>
      if snd me <=? emax - prec then S754_finite false p (snd me)
      else S754_infinity false
  | Zneg _ => S754_nan
  end.

(** The exponent of the result: that of the binade of [a / b * 2 ^ ex]. *)
Definition cexp (a b ex : Z) : Z := fexp prec emax (Zdigits2 (a / b) + ex).

(** The mantissa and exponent of [a / b * 2 ^ ex] rounded. *)
Definition nf (a b ex : Z) : Z * Z :=
  let e := cexp a b ex in normal (RNE a (b * 2 ^ (e - ex))) e.

(** [a / b * 2 ^ ex] rounded to a Number. *)
Definition roundAt (a b ex : Z) : number := pack (nf a b ex).

(** The integer part of [a / b] has the bits a full mantissa needs, or
    the exponent is at the bottom of the range. *)
Definition enough (a b ex : Z) : Prop :=
  53 <= Zdigits2 (a / b) \/ ex <= -1074.

(** Exponent first, then mantissa. *)
Definition lex_le (x y : Z * Z) : Prop :=
  snd x < snd y \/ (snd x = snd y /\ fst x <= fst y).

(** A mantissa of at most 53 bits, of exactly 53 above the smallest
    exponent. *)
Definition canon (x : Z * Z) : Prop :=
  0 <= fst x < 2 ^ 53 /\ -1074 <= snd x /\ (-1074 < snd x -> 2 ^ 52 <= fst x).

(** A mantissa of exactly 53 bits. *)
Definition is53 (m : positive) : Prop := 2 ^ 52 <= Z.pos m < 2 ^ 53.

(** The value of a canonical pair, in units of [2^-52]. *)
Definition units (x : Z * Z) : Z := fst x * 2 ^ (snd x + 52).

(** The mantissa and exponent of [Number(w)], for an integer [w > 0]. *)
Definition intForm (w : Z) : Z * Z := nf (w * 2 ^ 52) 1 (-52).

(** The mantissa of [1e18], which is [mant_1e18 * 2^7]. *)
Definition mant_1e18 : positive := 7812500000000000.

(** The mantissa of [1000], which is [mant_1000 * 2^-43]. *)
Definition mant_1000 : positive := 8796093022208000.

Ltac bool_cases :=
  repeat match goal with
         | |- context [?x <=? ?y] => destruct (Z.leb_spec x y)
         | |- context [?x <? ?y] => destruct (Z.ltb_spec x y)
         | |- context [?x =? ?y] => destruct (Z.eqb_spec x y)
         end.

(* ------------------------------------------------------------------ *)
(** ** Notions for the further properties *)

(** What [selectorOf] produces: 10 code units that lower-casing leaves
    alone. *)
Definition canonicalSelector (e : string) : Prop :=
  JSString.length e = 10 /\ JSString.toLowerCase e = e.

(** A rule set with a falsy threshold ([0], [-0], [NaN]) and every empty
    list taken out. *)
Definition normalizeRules (r : Rule) : Rule :=
  {| minEth := match minEth r with
               | Some m => if truthy m then Some m else None
               | None => None
               end;
     allowSelectors := match allowSelectors r with
                       | Some [] => None
                       | o => o
                       end;
     denySelectors := match denySelectors r with
                      | Some [] => None
                      | o => o
                      end;
     watchRecipients := match watchRecipients r with
                        | Some [] => None
                        | o => o
                        end |}.

(** [{...r, denySelectors: o}] *)
Definition setDeny (r : Rule) (o : option (list string)) : Rule :=
  {| minEth := minEth r; allowSelectors := allowSelectors r;
     denySelectors := o; watchRecipients := watchRecipients r |}.

(** [{...tx, value: v}] *)
Definition withValue (tx : TransactionResponse) (v : Z) : TransactionResponse :=
  {| hash := hash tx; from := from tx; to := to tx; value := Some v;
     data := data tx; nonce := nonce tx |}.

(** The least amount, in wei, that [weiToEth] does not put below [0.5]:
    32 wei under half an ether. *)
Definition threshold_0_5 : Z := 499999999999999968.

(** Every code unit of [s] is ASCII (below 128), as in hex data. *)
Fixpoint isAscii (s : string) : bool :=
  match s with
  | EmptyString => true
  | String c r => (N_of_ascii c <? 128)%N && isAscii r
  end.

(** Data that is absent or ASCII. *)
Definition asciiData (d : option string) : bool :=
  match d with
  | Some s => isAscii s
  | None => true
  end.

(** The code units of a string, as a list. *)
Fixpoint units_of (s : string) : list ascii :=
  match s with
  | EmptyString => []
  | String c r => c :: units_of r
  end.

(** Line feed and carriage return. *)
Definition lineFeed : ascii := ascii_of_N 10.
Definition carriageReturn : ascii := ascii_of_N 13.

(** The key list the alert would have if its time stamp were named
    [timestamp]. *)
Definition keysWithTimestamp : list string :=
  ["type"; "hash"; "from"; "to"; "eth"; "selector"; "nonce"; "timestamp"].

(** A plain transfer without data, and a contract creation, under other
    hashes, senders and nonces than [txPlain] and [txCreate]. *)
Definition txPlainBare : TransactionResponse :=
  {| hash := "0x9"; from := None; to := Some "0xABC";
     value := Some (10 ^ 18); data := None; nonce := ofInteger 9 |}.

Definition txCreateBare : TransactionResponse :=
  {| hash := "0x8"; from := Some "0xfed"; to := Some EmptyString;
     value := Some (2 * 10 ^ 18); data := Some "0x6080604052ffff";
     nonce := ofInteger 3 |}.

(** A transfer whose hash begins with a line feed. *)
Definition txLineFeed : TransactionResponse :=
  {| hash := String lineFeed "0x1"; from := Some "0xDEF"; to := Some "0xABC";
     value := Some (2 * 10 ^ 18); data := Some "0xA9059CBB00";
     nonce := ofInteger 5 |}.

(** No code unit of [s] is below 32, the range of line feed (10),
    carriage return (13) and tab (9).  Code units from 127 up are not
    looked at. *)
Fixpoint noC0 (s : string) : bool :=
  match s with
  | EmptyString => true
  | String c r => (32 <=? N_of_ascii c)%N && noC0 r
  end.

(** A deny list and an allow list written in upper case. *)
Definition rulesUpperDeny : Rule :=
  {| minEth := None; allowSelectors := None;
     denySelectors := Some ["0x095EA7B3"]; watchRecipients := None |}.

Definition rulesUpperAllow : Rule :=
  {| minEth := None; allowSelectors := Some ["0xA9059CBB"];
     denySelectors := None; watchRecipients := None |}.

(** A watch list written in upper case. *)
Definition rulesUpperWatch : Rule :=
  {| minEth := None; allowSelectors := None; denySelectors := None;
     watchRecipients := Some ["0xABC"] |}.

(** An allow list that the deny list covers. *)
Definition rulesAllowDenied : Rule :=
  {| minEth := None; allowSelectors := Some ["0xa9059cbb"];
     denySelectors := Some ["0x095ea7b3"; "0xa9059cbb"];
     watchRecipients := None |}.

Ltac compare_cases :=
  repeat match goal with
         | H : context [Z.compare ?a ?b] |- _ =>
             destruct (Z.compare_spec a b)
         | H : context [Pos.compare_cont Eq ?a ?b] |- _ =>
             change (Pos.compare_cont Eq a b) with (Pos.compare a b) in *;
             destruct (Pos.compare_spec a b)
         | |- context [Z.compare ?a ?b] =>
             destruct (Z.compare_spec a b)
         | |- context [Pos.compare_cont Eq ?a ?b] =>
             change (Pos.compare_cont Eq a b) with (Pos.compare a b) in *;
             destruct (Pos.compare_spec a b)
         end.

(* ------------------------------------------------------------------ *)
(** ** The embedding at work *)

Example toString_samples :
  map toString
    [ ofRatio 1 2; ofRatio 1 10; ofInteger (10 ^ 21); ofInteger (10 ^ 20);
      ofRatio 123456 1000; ofRatio 1 (10 ^ 7); ofRatio 1 (10 ^ 6);
      div (ofInteger 1) (ofInteger 3); ofInteger (-5); ofInteger 0;
      ofInteger (2 ^ 53 + 1); ofInteger (2 ^ 1024);
      div (ofInteger 0) (ofInteger 0) ]
  = [ "0.5"; "0.1"; "1e+21"; "100000000000000000000";
      "123.456"; "1e-7"; "0.000001";
      "0.3333333333333333"; "-5"; "0";
      "9007199254740992"; "Infinity"; "NaN" ].
Proof. vm_compute. reflexivity. Qed.

Example weiToEth_samples :
  map weiToEth [0; 10 ^ 17; 2 * 10 ^ 18; 10 ^ 17 + 1]
  = [S754_zero false; ofRatio 1 10; ofInteger 2; ofRatio 1 10].
Proof. vm_compute. reflexivity. Qed.

Example matchRules_samples :
  matchRules txTransfer RULES = {| ok := true; reason := [] |} /\
  matchRules txApprove RULES
  = {| ok := false; reason := ["denied:0x095ea7b3"] |} /\
  matchRules txAllFail rulesAll
  = {| ok := false;
       reason := ["value<0.5"; "!allowed:0x095ea7b3"; "denied:0x095ea7b3";
                  "!watched:to"] |}.
Proof. repeat split; vm_compute; reflexivity. Qed.

Example onPending_samples :
  onPending (Found txTransfer) 1700000000123
  = [ "{" ++ member "type" (JSON.quote "mempool_alert") ++ "," ++
      member "hash" (JSON.quote "0x1") ++ "," ++
      member "from" (JSON.quote "0xdef") ++ "," ++
      member "to" (JSON.quote "0xabc") ++ "," ++
      member "eth" "2" ++ "," ++
      member "selector" (JSON.quote "0xa9059cbb") ++ "," ++
      member "nonce" "5" ++ "," ++
      member "ts" "1700000000" ++ "}" ] /\
  onPending (Found txApprove) 1700000000123 = [] /\
  onPending Nothing 1700000000123 = [] /\
  onPending Threw 1700000000123 = [].
Proof. repeat split; vm_compute; reflexivity. Qed.

(* ------------------------------------------------------------------ *)
(** ** Binary64 rounding: the operations of [SpecFloat] meet the reference *)

Lemma div_mod_double (a b : Z) :
  0 <= a -> 0 < b ->
  a / (2 * b) = (a / b) / 2 /\
  a mod (2 * b) = (a / b) mod 2 * b + a mod b.
Proof.
  intros Ha Hb.
  pose proof (Z.div_mod a b ltac:(lia)) as E.
  pose proof (Z.mod_pos_bound a b Hb) as B.
  pose proof (Z.div_mod (a / b) 2 ltac:(lia)) as E2.
  pose proof (Z.mod_pos_bound (a / b) 2 ltac:(lia)) as B2.
  assert (a = (2 * b) * (a / b / 2) + ((a / b) mod 2 * b + a mod b)) as E3 by nia.
  assert (0 <= (a / b) mod 2 * b + a mod b < 2 * b) as B3 by nia.
  split.
  - symmetry. apply (Z.div_unique_pos _ _ _ _ B3 E3).
  - symmetry. apply (Z.mod_unique_pos _ _ _ _ B3 E3).
Qed.

Lemma xI_div_mod (p : positive) :
  Z.pos p~1 / 2 = Z.pos p /\ Z.pos p~1 mod 2 = 1.
Proof.
  rewrite Pos2Z.inj_xI. split; symmetry.
  - apply (Z.div_unique_pos _ _ _ 1); lia.
  - apply (Z.mod_unique_pos _ _ (Z.pos p)); lia.
Qed.

Lemma xO_div_mod (p : positive) :
  Z.pos p~0 / 2 = Z.pos p /\ Z.pos p~0 mod 2 = 0.
Proof.
  rewrite Pos2Z.inj_xO. split; symmetry.
  - apply (Z.div_unique_pos _ _ _ 0); lia.
  - apply (Z.mod_unique_pos _ _ (Z.pos p)); lia.
Qed.

(** One right shift halves the scale: the record still holds the
    integer part, the round bit and the sticky bit. *)
Lemma shr_1_locates (mrs : shr_record) (a b : Z) :
  0 <= a -> 0 < b -> locates mrs a b -> locates (shr_1 mrs) a (2 * b).
Proof.
  intros Ha Hb [Hm Hr Hs].
  destruct (div_mod_double a b Ha Hb) as [Q R].
  pose proof (Z.mod_pos_bound a b Hb) as B.
  pose proof (Z.div_pos a b Ha Hb) as Qp.
  destruct mrs as [m r s]; cbn [shr_m shr_r shr_s] in Hm, Hr, Hs.
  assert (RS : r || s = negb (a mod b =? 0)).
  { rewrite Hr, Hs. clear - B Hb.
    bool_cases; cbn [negb andb orb]; try reflexivity; lia. }
  destruct m as [|[p|p|]|p]; try lia; unfold shr_1; rewrite RS;
    constructor; cbn [shr_m shr_r shr_s]; rewrite ?Q, ?R, <- Hm;
    rewrite ?(proj1 (xI_div_mod p)), ?(proj2 (xI_div_mod p)),
            ?(proj1 (xO_div_mod p)), ?(proj2 (xO_div_mod p));
    change (0 mod 2) with 0; change (1 mod 2) with 1;
    change (0 / 2) with 0; change (1 / 2) with 0;
    clear - B Hb;
    try reflexivity;
    bool_cases; cbn [negb andb orb]; try reflexivity; lia.
Qed.

Lemma pow2_gt0 (n : Z) : 0 <= n -> 0 < 2 ^ n.
Proof. intros. now apply Z.pow_pos_nonneg. Qed.

Lemma locates_eq_den (mrs : shr_record) (a b b' : Z) :
  b = b' -> locates mrs a b -> locates mrs a b'.
Proof. now intros ->. Qed.

(** So do [p] right shifts, for the scale [2 ^ p]. *)
Lemma iter_shr_1_locates (p : positive) :
  forall mrs a b, 0 <= a -> 0 < b -> locates mrs a b ->
  locates (iter_pos shr_1 p mrs) a (b * 2 ^ Z.pos p).
Proof.
  induction p as [p IH | p IH |]; intros mrs a b Ha Hb L; cbn [iter_pos].
  - pose proof (pow2_gt0 (Z.pos p) ltac:(lia)).
    apply (locates_eq_den _ _ (2 * b * 2 ^ Z.pos p * 2 ^ Z.pos p)).
    + rewrite (Pos2Z.inj_xI p).
      replace (2 * Z.pos p + 1) with (Z.pos p + Z.pos p + 1) by lia.
      rewrite Z.pow_add_r; [|lia|lia]. rewrite Z.pow_add_r; [|lia|lia].
      change (2 ^ 1) with 2. ring.
    + apply IH; [lia | nia |]. apply IH; [lia | lia |].
      now apply shr_1_locates.
  - pose proof (pow2_gt0 (Z.pos p) ltac:(lia)).
    apply (locates_eq_den _ _ (b * 2 ^ Z.pos p * 2 ^ Z.pos p)).
    + rewrite (Pos2Z.inj_xO p).
      replace (2 * Z.pos p) with (Z.pos p + Z.pos p) by lia.
      rewrite Z.pow_add_r; [|lia|lia]. ring.
    + apply IH; [lia | nia |]. now apply IH.
  - change (2 ^ 1) with 2. rewrite Z.mul_comm. now apply shr_1_locates.
Qed.

Lemma shr_locates (mrs : shr_record) (e n a b : Z) :
  0 <= a -> 0 < b -> locates mrs a b ->
  locates (fst (shr mrs e n)) a (b * 2 ^ Z.max n 0) /\
  snd (shr mrs e n) = e + Z.max n 0.
Proof.
  intros Ha Hb L. destruct n as [|p|p]; cbn [shr fst snd].
  - change (Z.max 0 0) with 0. rewrite Z.mul_1_r, Z.add_0_r. now split.
  - rewrite Z.max_l by lia. split; [now apply iter_shr_1_locates | reflexivity].
  - rewrite Z.max_r by lia. rewrite Z.mul_1_r, Z.add_0_r. now split.
Qed.

(** [round_nearest_even] on a record is [RNE] on the fraction it holds. *)
Lemma RNE_locates (mrs : shr_record) (a b : Z) :
  0 <= a -> 0 < b -> locates mrs a b ->
  round_nearest_even (shr_m mrs) (loc_of_shr_record mrs) = RNE a b.
Proof.
  intros Ha Hb [Hm Hr Hs].
  pose proof (Z.mod_pos_bound a b Hb) as B.
  destruct mrs as [m r s]; cbn [shr_m shr_r shr_s] in *.
  unfold RNE. subst m.
  destruct (Z.compare_spec (2 * (a mod b)) b) as [C|C|C];
    destruct r, s; cbn [loc_of_shr_record round_nearest_even];
    try reflexivity;
    revert Hr Hs; clear - B Hb C; bool_cases; cbn [negb andb orb];
    intros; try discriminate; try lia.
Qed.

Lemma shr_record_of_loc_locates (m : Z) (l : location) (a b : Z) :
  0 < b -> m = a / b ->
  l = (if a mod b =? 0 then loc_Exact
       else loc_Inexact (2 * (a mod b) ?= b)) ->
  locates (shr_record_of_loc m l) a b.
Proof.
  intros Hb -> ->.
  pose proof (Z.mod_pos_bound a b Hb) as B.
  destruct (Z.eqb_spec (a mod b) 0) as [E|E].
  - constructor; cbn [shr_record_of_loc shr_m shr_r shr_s];
      rewrite ?E; try reflexivity; bool_cases; cbn [negb andb]; try reflexivity; lia.
  - destruct (Z.compare_spec (2 * (a mod b)) b) as [C|C|C];
      constructor; cbn [shr_record_of_loc shr_m shr_r shr_s];
      try reflexivity; clear - B Hb C E; bool_cases; cbn [negb andb];
      try reflexivity; lia.
Qed.

(** *** The number of binary digits *)
Lemma Zdigits2_log2 (m : Z) : 0 < m -> Zdigits2 m = Z.log2 m + 1.
Proof.
  destruct m as [|p|p]; try lia. intros _.
  destruct p as [p|p|]; cbn [Zdigits2 digits2_pos Z.log2]; try reflexivity.
  - replace (digits2_pos p) with (Pos.size p)
      by (induction p; simpl; congruence). lia.
  - replace (digits2_pos p) with (Pos.size p)
      by (induction p; simpl; congruence). lia.
Qed.

(** [Zdigits2] is the number of binary digits. *)
Lemma Zdigits2_spec (m : Z) :
  0 < m -> 2 ^ (Zdigits2 m - 1) <= m < 2 ^ Zdigits2 m.
Proof.
  intros H. rewrite Zdigits2_log2 by assumption.
  replace (Z.log2 m + 1 - 1) with (Z.log2 m) by lia.
  apply Z.log2_spec in H. unfold Z.succ in H. exact H.
Qed.

Lemma Zdigits2_unique (m d : Z) :
  2 ^ (d - 1) <= m < 2 ^ d -> 0 < m -> Zdigits2 m = d.
Proof.
  intros B H. rewrite Zdigits2_log2 by assumption.
  assert (0 <= d - 1).
  { destruct (Z.le_gt_cases 0 (d - 1)); [assumption|].
    assert (d <= 0) by lia.
    destruct (Z.eq_dec d 0) as [->|]; [simpl in B; lia|].
    rewrite (Z.pow_neg_r 2 d) in B by lia. lia. }
  rewrite (Z.log2_unique m (d - 1)); try lia.
  replace (Z.succ (d - 1)) with d by lia. exact B.
Qed.

Lemma Zdigits2_nonneg (m : Z) : 0 <= Zdigits2 m.
Proof. destruct m; simpl; lia. Qed.

Lemma Zdigits2_mono (m m' : Z) : 0 <= m <= m' -> Zdigits2 m <= Zdigits2 m'.
Proof.
  intros [H0 H1].
  destruct (Z.eq_dec m 0) as [->|]; [apply Zdigits2_nonneg|].
  rewrite !Zdigits2_log2 by lia.
  pose proof (Z.log2_le_mono m m' H1). lia.
Qed.

Lemma Zdigits2_lt_pow (m k : Z) : 0 <= k -> 0 <= m < 2 ^ k -> Zdigits2 m <= k.
Proof.
  intros Hk [H0 H1].
  destruct (Z.eq_dec m 0) as [->|]; [simpl; lia|].
  pose proof (Zdigits2_spec m ltac:(lia)) as [L _].
  destruct (Z.le_gt_cases (Zdigits2 m) k) as [|G]; [assumption|].
  assert (2 ^ k <= 2 ^ (Zdigits2 m - 1)) by (apply Z.pow_le_mono_r; lia).
  lia.
Qed.

Lemma Zdigits2_ge_pow (m k : Z) : 0 <= k -> 2 ^ k <= m -> k + 1 <= Zdigits2 m.
Proof.
  intros Hk H.
  pose proof (pow2_gt0 k Hk).
  pose proof (Zdigits2_spec m ltac:(lia)) as [_ U].
  destruct (Z.le_gt_cases (k + 1) (Zdigits2 m)) as [|G]; [assumption|].
  assert (2 ^ Zdigits2 m <= 2 ^ k) by (apply Z.pow_le_mono_r; lia).
  lia.
Qed.

Lemma fexp_eq (e : Z) : fexp prec emax e = Z.max (e - 53) (-1074).
Proof. reflexivity. Qed.

(** *** The nearest integer *)
Lemma RNE_bounds (a b : Z) : a / b <= RNE a b <= a / b + 1.
Proof.
  unfold RNE. destruct (2 * (a mod b) ?= b); try destruct (Z.even (a / b)); lia.
Qed.

Lemma cexp_ge (a b ex : Z) : enough a b ex -> ex <= cexp a b ex.
Proof. unfold enough, cexp. rewrite fexp_eq. lia. Qed.

Lemma cexp_ge_emin (a b ex : Z) : -1074 <= cexp a b ex.
Proof. unfold cexp. rewrite fexp_eq. lia. Qed.

Lemma shifted_lt (a b ex : Z) :
  0 <= a -> 0 < b -> enough a b ex ->
  a / (b * 2 ^ (cexp a b ex - ex)) < 2 ^ 53.
Proof.
  intros Ha Hb En.
  pose proof (cexp_ge a b ex En) as G.
  set (n := cexp a b ex - ex) in *.
  assert (Hn : 0 <= n) by lia.
  pose proof (pow2_gt0 n Hn) as Pn.
  rewrite <- Z.div_div by lia.
  pose proof (Z.div_pos a b Ha Hb) as Q.
  destruct (Z.eq_dec (a / b) 0) as [E|E].
  - rewrite E. rewrite Z.div_0_l by lia. reflexivity.
  - apply Z.div_lt_upper_bound; [lia|].
    pose proof (Zdigits2_spec (a / b) ltac:(lia)) as [_ U].
    assert (Zdigits2 (a / b) <= n + 53).
    { unfold n, cexp. rewrite fexp_eq. lia. }
    assert (2 ^ Zdigits2 (a / b) <= 2 ^ (n + 53)) by (apply Z.pow_le_mono_r; lia).
    rewrite Z.pow_add_r in * by lia. lia.
Qed.

Lemma shr_m_of_loc (m : Z) (l : location) : shr_m (shr_record_of_loc m l) = m.
Proof. destruct l as [|[]]; reflexivity. Qed.

(** The rounding step shared by all operations of [SpecFloat] computes
    the nearest binary64 value, ties to even, of the fraction its
    arguments hold. *)
Lemma binary_round_aux_roundAt (mx : Z) (lx : location) (a b ex : Z) :
  0 <= a -> 0 < b ->
  locates (shr_record_of_loc mx lx) a b ->
  enough a b ex ->
  binary_round_aux prec emax false mx ex lx = roundAt a b ex.
Proof.
  intros Ha Hb L En.
  assert (Hmx : mx = a / b) by (rewrite <- (loc_m _ _ _ L); symmetry; apply shr_m_of_loc).
  pose proof (cexp_ge a b ex En) as G.
  pose proof (cexp_ge_emin a b ex) as Gm.
  pose proof (shifted_lt a b ex Ha Hb En) as Lt.
  unfold binary_round_aux, shr_fexp, roundAt, nf.
  subst mx. fold (cexp a b ex).
  set (e := cexp a b ex) in *.
  destruct (shr_locates (shr_record_of_loc (a / b) lx) ex (e - ex) a b Ha Hb L)
    as [L1 E1].
  destruct (shr (shr_record_of_loc (a / b) lx) ex (e - ex)) as [mrs1 e1].
  cbn [fst snd] in L1, E1.
  rewrite Z.max_l in L1, E1 by lia. replace (ex + (e - ex)) with e in E1 by lia.
  subst e1.
  assert (Pn : 0 < b * 2 ^ (e - ex)).
  { pose proof (pow2_gt0 (e - ex) ltac:(lia)). nia. }
  rewrite (RNE_locates mrs1 a (b * 2 ^ (e - ex)) Ha Pn L1).
  pose proof (RNE_bounds a (b * 2 ^ (e - ex))) as RB.
  assert (Q0 : 0 <= a / (b * 2 ^ (e - ex))) by (apply Z.div_pos; lia).
  set (m2 := RNE a (b * 2 ^ (e - ex))) in *.
  unfold normal.
  destruct (Z.eqb_spec m2 (2 ^ 53)) as [E2|N2].
  - rewrite E2. change (Zdigits2 (2 ^ 53)) with 54.
    replace (fexp prec emax (54 + e) - e) with 1 by (rewrite fexp_eq; lia).
    cbn [shr_record_of_loc shr iter_pos]. 
    change (shr_1 {| shr_m := 2 ^ 53; shr_r := false; shr_s := false |})
      with {| shr_m := 2 ^ 52; shr_r := false; shr_s := false |}.
    cbn [shr_m]. unfold pack. cbn [fst snd]. reflexivity.
  - assert (D2 : Zdigits2 m2 <= 53) by (apply Zdigits2_lt_pow; lia).
    assert (N : fexp prec emax (Zdigits2 m2 + e) - e <= 0) by (rewrite fexp_eq; lia).
    assert (S : shr (shr_record_of_loc m2 loc_Exact) e
                  (fexp prec emax (Zdigits2 m2 + e) - e)
                = (shr_record_of_loc m2 loc_Exact, e)).
    { destruct (fexp prec emax (Zdigits2 m2 + e) - e); try reflexivity. lia. }
    rewrite S. cbn [shr_record_of_loc shr_m]. unfold pack. cbn [fst snd].
    reflexivity.
Qed.

(** *** Comparing fractions *)
Lemma div_frac_le (a b a' b' : Z) :
  0 < b -> 0 < b' -> a * b' <= a' * b -> a / b <= a' / b'.
Proof.
  intros Hb Hb' H.
  apply Z.div_le_lower_bound; [assumption|].
  pose proof (Z.mul_div_le a b Hb).
  nia.
Qed.

(** Rounding to the nearest integer is monotone. *)
Lemma RNE_mono (a b a' b' : Z) :
  0 < b -> 0 < b' -> a * b' <= a' * b -> RNE a b <= RNE a' b'.
Proof.
  intros Hb Hb' H.
  pose proof (div_frac_le a b a' b' Hb Hb' H) as Q.
  pose proof (RNE_bounds a b) as B. pose proof (RNE_bounds a' b') as B'.
  destruct (Z.eq_dec (a / b) (a' / b')) as [E|NE]; [|lia].
  pose proof (Z.div_mod a b ltac:(lia)) as D.
  pose proof (Z.div_mod a' b' ltac:(lia)) as D'.
  pose proof (Z.mod_pos_bound a b Hb) as M.
  pose proof (Z.mod_pos_bound a' b' Hb') as M'.
  assert (R : (a mod b) * b' <= (a' mod b') * b) by nia.
  unfold RNE in *. rewrite <- E in *.
  destruct (Z.compare_spec (2 * (a mod b)) b) as [C|C|C];
    destruct (Z.compare_spec (2 * (a' mod b')) b') as [C'|C'|C'];
    try destruct (Z.even (a / b)); try lia; nia.
Qed.

Lemma RNE_ext (a b a' b' : Z) :
  0 < b -> 0 < b' -> a * b' = a' * b -> RNE a b = RNE a' b'.
Proof.
  intros Hb Hb' H. apply Z.le_antisymm; apply RNE_mono; lia.
Qed.

Lemma RNE_half (a b : Z) : 0 < b -> 2 * RNE a b * b <= 2 * a + b.
Proof.
  intros Hb.
  pose proof (Z.div_mod a b ltac:(lia)) as D.
  pose proof (Z.mod_pos_bound a b Hb) as M.
  unfold RNE.
  destruct (Z.compare_spec (2 * (a mod b)) b) as [C|C|C];
    try destruct (Z.even (a / b)); nia.
Qed.

Lemma roundAt_nf (a b ex : Z) : roundAt a b ex = pack (nf a b ex).
Proof. reflexivity. Qed.

Lemma shifted_ge (a b ex : Z) :
  0 <= a -> 0 < b -> enough a b ex -> -1074 < cexp a b ex ->
  2 ^ 52 <= a / (b * 2 ^ (cexp a b ex - ex)).
Proof.
  intros Ha Hb En N.
  pose proof (cexp_ge a b ex En) as G.
  assert (D : 53 <= Zdigits2 (a / b) /\ cexp a b ex - ex = Zdigits2 (a / b) - 53).
  { revert N G. unfold enough in En. unfold cexp. rewrite fexp_eq. lia. }
  destruct D as [D ->].
  set (d := Zdigits2 (a / b)) in *.
  pose proof (pow2_gt0 (d - 53) ltac:(lia)) as Pn.
  rewrite <- Z.div_div by lia.
  assert (0 < a / b).
  { destruct (Z.eq_dec (a / b) 0) as [E|E].
    - unfold d in D. rewrite E in D. simpl in D. lia.
    - pose proof (Z.div_pos a b Ha Hb). lia. }
  pose proof (Zdigits2_spec (a / b) ltac:(lia)) as [L _]. fold d in L.
  apply Z.div_le_lower_bound; [lia|].
  replace (d - 1) with ((d - 53) + 52) in L by lia.
  rewrite Z.pow_add_r in L by lia. lia.
Qed.

(** The rounded mantissa and exponent are canonical. *)
Lemma nf_inv (a b ex : Z) :
  0 <= a -> 0 < b -> enough a b ex ->
  0 <= fst (nf a b ex) < 2 ^ 53 /\
  -1074 <= snd (nf a b ex) /\
  (-1074 < snd (nf a b ex) -> 2 ^ 52 <= fst (nf a b ex)).
Proof.
  intros Ha Hb En.
  pose proof (cexp_ge a b ex En) as G.
  pose proof (cexp_ge_emin a b ex) as Gm.
  pose proof (shifted_lt a b ex Ha Hb En) as Lt.
  pose proof (shifted_ge a b ex Ha Hb En) as Ge.
  unfold nf. set (e := cexp a b ex) in *.
  pose proof (RNE_bounds a (b * 2 ^ (e - ex))) as RB.
  assert (Pn : 0 < b * 2 ^ (e - ex)).
  { pose proof (pow2_gt0 (e - ex) ltac:(lia)). nia. }
  assert (Q0 : 0 <= a / (b * 2 ^ (e - ex))) by (apply Z.div_pos; lia).
  unfold normal.
  destruct (Z.eqb_spec (RNE a (b * 2 ^ (e - ex))) (2 ^ 53)) as [E2|N2];
    cbn [fst snd].
  - lia.
  - lia.
Qed.

(** Rounding to binary64 is monotone: a larger fraction has a larger
    exponent, or the same exponent and a mantissa at least as large. *)
Lemma nf_mono (a b a' b' ex : Z) :
  0 <= a -> 0 < b -> 0 <= a' -> 0 < b' ->
  enough a b ex -> enough a' b' ex ->
  a * b' <= a' * b ->
  lex_le (nf a b ex) (nf a' b' ex).
Proof.
  intros Ha Hb Ha' Hb' En En' H.
  pose proof (div_frac_le a b a' b' Hb Hb' H) as Q.
  pose proof (Z.div_pos a b Ha Hb) as Q0.
  assert (C : cexp a b ex <= cexp a' b' ex).
  { unfold cexp. rewrite !fexp_eq.
    pose proof (Zdigits2_mono (a / b) (a' / b') ltac:(lia)). lia. }
  pose proof (cexp_ge a b ex En) as G.
  pose proof (cexp_ge a' b' ex En') as G'.
  pose proof (cexp_ge_emin a b ex) as Gm.
  pose proof (shifted_lt a b ex Ha Hb En) as Lt.
  pose proof (shifted_lt a' b' ex Ha' Hb' En') as Lt'.
  pose proof (shifted_ge a' b' ex Ha' Hb' En') as Ge'.
  unfold nf, lex_le.
  set (e := cexp a b ex) in *. set (e' := cexp a' b' ex) in *.
  pose proof (RNE_bounds a (b * 2 ^ (e - ex))) as RB.
  pose proof (RNE_bounds a' (b' * 2 ^ (e' - ex))) as RB'.
  pose proof (pow2_gt0 (e - ex) ltac:(lia)) as P.
  pose proof (pow2_gt0 (e' - ex) ltac:(lia)) as P'.
  assert (M : e = e' ->
              RNE a (b * 2 ^ (e - ex)) <= RNE a' (b' * 2 ^ (e' - ex))).
  { intros E. rewrite <- E. apply RNE_mono; nia. }
  unfold normal.
  destruct (Z.eqb_spec (RNE a (b * 2 ^ (e - ex))) (2 ^ 53)) as [E2|N2];
    destruct (Z.eqb_spec (RNE a' (b' * 2 ^ (e' - ex))) (2 ^ 53)) as [E2'|N2'];
    cbn [fst snd]; lia.
Qed.

Lemma digits_scale (a b k : Z) :
  0 < b -> 0 <= k -> 0 < a / b ->
  Zdigits2 (a * 2 ^ k / b) = Zdigits2 (a / b) + k.
Proof.
  intros Hb Hk Q.
  pose proof (Zdigits2_spec (a / b) Q) as [L U].
  set (d := Zdigits2 (a / b)) in *.
  assert (Hd : 1 <= d).
  { destruct (Z.le_gt_cases 1 d); [assumption|].
    rewrite (Z.pow_neg_r 2 (d - 1)) in L by lia.
    assert (2 ^ d <= 2 ^ 0) by (apply Z.pow_le_mono_r; lia).
    simpl in *. lia. }
  pose proof (pow2_gt0 k Hk) as Pk.
  pose proof (pow2_gt0 (d - 1) ltac:(lia)) as Pd.
  assert (La : 2 ^ (d - 1) * b <= a).
  { pose proof (Z.mul_div_le a b Hb). nia. }
  assert (Ua : a < 2 ^ d * b).
  { destruct (Z.lt_ge_cases a (2 ^ d * b)) as [|G]; [assumption|].
    assert (2 ^ d <= a / b) by (apply Z.div_le_lower_bound; lia). lia. }
  assert (L2 : 2 ^ (d + k - 1) <= a * 2 ^ k / b).
  { apply Z.div_le_lower_bound; [lia|].
    replace (d + k - 1) with ((d - 1) + k) by lia.
    rewrite Z.pow_add_r by lia. nia. }
  assert (U2 : a * 2 ^ k / b < 2 ^ (d + k)).
  { apply Z.div_lt_upper_bound; [lia|].
    rewrite Z.pow_add_r by lia. nia. }
  apply Zdigits2_unique; lia.
Qed.

(** The same value written with [k] more bits in the integer part. *)
Lemma nf_rescale (a b ex k : Z) :
  0 <= a -> 0 < b -> 0 <= k -> 53 <= Zdigits2 (a / b) ->
  nf (a * 2 ^ k) b (ex - k) = nf a b ex.
Proof.
  intros Ha Hb Hk D.
  assert (Q : 0 < a / b).
  { pose proof (Z.div_pos a b Ha Hb).
    destruct (Z.eq_dec (a / b) 0) as [E|E]; [|lia].
    rewrite E in D. simpl in D. lia. }
  unfold nf, cexp. rewrite digits_scale by assumption.
  replace (Zdigits2 (a / b) + k + (ex - k)) with (Zdigits2 (a / b) + ex) by lia.
  set (e := fexp prec emax (Zdigits2 (a / b) + ex)).
  assert (G : ex <= e) by (unfold e; rewrite fexp_eq; lia).
  pose proof (pow2_gt0 k Hk) as Pk.
  pose proof (pow2_gt0 (e - ex) ltac:(lia)) as Pn.
  f_equal.
  replace (e - (ex - k)) with ((e - ex) + k) by lia.
  rewrite Z.pow_add_r by lia.
  apply RNE_ext; nia.
Qed.

Lemma roundAt_rescale (a b ex k : Z) :
  0 <= a -> 0 < b -> 0 <= k -> 53 <= Zdigits2 (a / b) ->
  roundAt (a * 2 ^ k) b (ex - k) = roundAt a b ex.
Proof. intros. rewrite !roundAt_nf. f_equal. now apply nf_rescale. Qed.

Lemma pos_compare_cont_le (p q : positive) :
  Z.pos p <= Z.pos q ->
  Pos.compare_cont Eq p q = Lt \/ Pos.compare_cont Eq p q = Eq.
Proof.
  intros H. change (Pos.compare_cont Eq p q) with (Pos.compare p q).
  destruct (Pos.compare_spec p q); auto. lia.
Qed.

(** The order of canonical pairs is the order of the Numbers. *)
Lemma pack_le (x y : Z * Z) :
  canon x -> canon y -> lex_le x y -> SFleb (pack x) (pack y) = true.
Proof.
  intros (Bx & Ex & Nx) (By & Ey & Ny) L.
  destruct x as [m e], y as [m' e']. unfold lex_le in L. cbn [fst snd] in *.
  assert (P : 0 < m -> 0 < m') by lia.
  unfold pack; cbn [fst snd].
  destruct m as [|p|p]; [| |lia]; (destruct m' as [|p'|p']; [| |lia]).
  - reflexivity.
  - destruct (e' <=? emax - prec); reflexivity.
  - lia.
  - destruct (Z.leb_spec e (emax - prec)) as [A|A];
      destruct (Z.leb_spec e' (emax - prec)) as [A'|A']; try reflexivity.
    + unfold SFleb, SFcompare.
      destruct (Z.compare_spec e e') as [C|C|C]; try reflexivity; try lia.
      destruct (pos_compare_cont_le p p' ltac:(lia)) as [-> | ->]; reflexivity.
    + lia.
Qed.

Lemma roundAt_mono (a b a' b' ex : Z) :
  0 <= a -> 0 < b -> 0 <= a' -> 0 < b' ->
  enough a b ex -> enough a' b' ex ->
  a * b' <= a' * b ->
  SFleb (roundAt a b ex) (roundAt a' b' ex) = true.
Proof.
  intros. rewrite !roundAt_nf. apply pack_le.
  - now apply nf_inv.
  - now apply nf_inv.
  - now apply nf_mono.
Qed.

Lemma iter_xO (p d : positive) :
  Z.pos (Pos.iter xO p d) = Z.pos p * 2 ^ Z.pos d.
Proof.
  induction d as [|d IH] using Pos.peano_ind.
  - cbn [Pos.iter]. rewrite (Pos2Z.inj_xO p). change (2 ^ 1) with 2. ring.
  - rewrite Pos.iter_succ, Pos2Z.inj_xO, IH, Pos2Z.inj_succ, Z.pow_succ_r by lia.
    ring.
Qed.

Lemma Zdigits2_pow_mul (m k : Z) :
  0 < m -> 0 <= k -> Zdigits2 (m * 2 ^ k) = Zdigits2 m + k.
Proof.
  intros Hm Hk.
  pose proof (digits_scale m 1 k ltac:(lia) Hk) as H.
  rewrite !Z.div_1_r in H. apply H. lia.
Qed.

Lemma locates_exact (m : Z) : locates (shr_record_of_loc m loc_Exact) m 1.
Proof.
  apply shr_record_of_loc_locates; [lia | now rewrite Z.div_1_r |].
  now rewrite Z.mod_1_r.
Qed.

(** [Number(w)] is [w] rounded. *)
Lemma ofInteger_roundAt (w : Z) :
  0 < w -> ofInteger w = roundAt (w * 2 ^ 52) 1 (-52).
Proof.
  intros Hw. destruct w as [|p|p]; try lia.
  unfold ofInteger, binary_normalize, binary_round.
  change (Z.pos (digits2_pos p)) with (Zdigits2 (Z.pos p)).
  pose proof (Zdigits2_spec (Z.pos p) Hw) as S.
  set (d := Zdigits2 (Z.pos p)) in *.
  assert (Hd : 1 <= d).
  { destruct (Z.le_gt_cases 1 d); [assumption|].
    assert (2 ^ d <= 2 ^ 0) by (apply Z.pow_le_mono_r; lia).
    simpl in *. lia. }
  replace (fexp prec emax (d + 0)) with (d - 53) by (rewrite fexp_eq; lia).
  unfold shl_align. rewrite Z.sub_0_r.
  destruct (d - 53) as [|q|q] eqn:E.
  - rewrite (binary_round_aux_roundAt _ _ (Z.pos p) 1 0);
      [ | lia | lia | apply locates_exact
        | left; rewrite Z.div_1_r; fold d; lia ].
    rewrite <- (roundAt_rescale (Z.pos p) 1 0 52);
      [reflexivity | lia | lia | lia | rewrite Z.div_1_r; fold d; lia].
  - rewrite (binary_round_aux_roundAt _ _ (Z.pos p) 1 0);
      [ | lia | lia | apply locates_exact
        | left; rewrite Z.div_1_r; fold d; lia ].
    rewrite <- (roundAt_rescale (Z.pos p) 1 0 52);
      [reflexivity | lia | lia | lia | rewrite Z.div_1_r; fold d; lia].
  - assert (D : Zdigits2 (Z.pos (Pos.iter xO p q)) = 53).
    { rewrite iter_xO, Zdigits2_pow_mul by lia. fold d. lia. }
    rewrite (binary_round_aux_roundAt _ _ (Z.pos (Pos.iter xO p q)) 1 (Z.neg q));
      [ | lia | lia | apply locates_exact
        | left; rewrite Z.div_1_r; lia ].
    rewrite <- (roundAt_rescale _ 1 (Z.neg q) (Z.neg q + 52));
      [ | lia | lia | lia | rewrite Z.div_1_r; lia].
    replace (Z.neg q - (Z.neg q + 52)) with (-52) by lia.
    f_equal. rewrite iter_xO.
    rewrite <- Z.mul_assoc, <- Z.pow_add_r by lia.
    f_equal. f_equal. lia.
Qed.

Lemma new_location_spec (n r : Z) :
  0 < n -> 0 <= r ->
  new_location n r
  = if r =? 0 then loc_Exact else loc_Inexact (2 * r ?= n).
Proof.
  intros Hn Hr. unfold new_location, new_location_even, new_location_odd.
  destruct (Z.even n) eqn:Ev; [reflexivity|].
  destruct (r =? 0); [reflexivity|].
  f_equal.
  assert (O : Z.odd n = true) by (rewrite <- Z.negb_even, Ev; reflexivity).
  apply Z.odd_spec in O. destruct O as [k ->].
  destruct (Z.compare_spec (2 * r + 1) (2 * k + 1));
    destruct (Z.compare_spec (2 * r) (2 * k + 1)); try reflexivity; lia.
Qed.

(** The quotient of two normal Numbers is the exact quotient rounded. *)
Lemma div_roundAt (m1 m2 : positive) (e1 e2 : Z) :
  is53 m1 -> is53 m2 -> -1074 <= e1 - e2 - 53 ->
  div (S754_finite false m1 e1) (S754_finite false m2 e2)
  = roundAt (Z.pos m1 * 2 ^ 53) (Z.pos m2) (e1 - e2 - 53).
Proof.
  intros H1 H2 He. unfold div, SFdiv, SFdiv_core_binary.
  rewrite (Zdigits2_unique (Z.pos m1) 53), (Zdigits2_unique (Z.pos m2) 53)
    by (unfold is53 in *; simpl in *; lia).
  replace (Z.min (fexp prec emax (53 + e1 - (53 + e2))) (e1 - e2))
    with (e1 - e2 - 53) by (rewrite fexp_eq; lia).
  replace (e1 - e2 - (e1 - e2 - 53)) with 53 by lia.
  rewrite Z.shiftl_mul_pow2 by lia.
  set (a := Z.pos m1 * 2 ^ 53).
  assert (Q : Z.div_eucl a (Z.pos m2) = (a / Z.pos m2, a mod Z.pos m2)).
  { unfold Z.div, Z.modulo. now destruct (Z.div_eucl a (Z.pos m2)). }
  rewrite Q. cbn [xorb].
  pose proof (Z.mod_pos_bound a (Z.pos m2) ltac:(lia)) as B.
  apply binary_round_aux_roundAt.
  - unfold a. lia.
  - lia.
  - apply shr_record_of_loc_locates; [lia | reflexivity |].
    apply new_location_spec; lia.
  - left. apply (Zdigits2_ge_pow _ 52); [lia|].
    apply Z.div_le_lower_bound; [lia|].
    unfold a, is53 in *. nia.
Qed.

Lemma ofInteger_1e18 : ofInteger (10 ^ 18) = S754_finite false mant_1e18 7.
Proof. vm_compute. reflexivity. Qed.

Lemma is53_1e18 : is53 mant_1e18.
Proof. unfold is53, mant_1e18. simpl. lia. Qed.

Lemma quot_enough (a : Z) (m2 : positive) (ex : Z) :
  2 ^ 52 * 2 ^ 53 <= a -> is53 m2 -> enough a (Z.pos m2) ex.
Proof.
  intros Ha H2. left. apply (Zdigits2_ge_pow _ 52); [lia|].
  apply Z.div_le_lower_bound; [lia|]. unfold is53 in H2. nia.
Qed.

Lemma lex_units (x y : Z * Z) :
  canon x -> canon y -> lex_le x y -> -52 <= snd x ->
  units x <= units y.
Proof.
  intros (Bx & Ex & Nx) (By & Ey & Ny) L Hx. unfold units.
  destruct x as [m e], y as [m' e']; unfold lex_le in L; cbn [fst snd] in *.
  pose proof (pow2_gt0 (e + 52) ltac:(lia)) as P.
  destruct L as [L | [<- L]]; [|nia].
  replace (e' + 52) with ((e + 52) + 1 + (e' - e - 1)) by lia.
  rewrite (Z.pow_add_r 2 (e + 52 + 1) (e' - e - 1)),
    (Z.pow_add_r 2 (e + 52) 1) by lia.
  change (2 ^ 1) with 2.
  pose proof (pow2_gt0 (e' - e - 1) ltac:(lia)) as P'.
  assert (M' : 2 ^ 52 <= m') by lia.
  set (P2 := 2 ^ (e + 52)) in *. set (Q2 := 2 ^ (e' - e - 1)) in *.
  assert (S1 : m * P2 <= 2 ^ 53 * P2) by (apply Z.mul_le_mono_nonneg_r; lia).
  assert (S2 : 2 ^ 52 * (P2 * 2) <= m' * (P2 * 2))
    by (apply Z.mul_le_mono_nonneg_r; lia).
  assert (S3 : m' * (P2 * 2) * 1 <= m' * (P2 * 2) * Q2)
    by (apply Z.mul_le_mono_nonneg_l; nia).
  change (2 ^ 53) with (2 ^ 52 * 2) in S1.
  lia.
Qed.

Lemma int_enough (w : Z) : 0 < w -> enough (w * 2 ^ 52) 1 (-52).
Proof.
  intros Hw. left. rewrite Z.div_1_r. apply (Zdigits2_ge_pow _ 52); lia.
Qed.

Lemma intForm_canon (w : Z) :
  0 < w -> canon (intForm w) /\ -52 <= snd (intForm w) /\ 2 ^ 52 <= fst (intForm w).
Proof.
  intros Hw.
  pose proof (nf_inv (w * 2 ^ 52) 1 (-52) ltac:(lia) ltac:(lia) (int_enough w Hw)) as C.
  assert (-52 <= snd (intForm w)).
  { pose proof (cexp_ge _ _ _ (int_enough w Hw)).
    unfold intForm, nf. cbv zeta. unfold normal.
    destruct (_ =? _); cbn [snd]; lia. }
  split; [exact C|]. split; [assumption|].
  destruct C as (_ & _ & C). unfold intForm in *. apply C. lia.
Qed.

Lemma intForm_mono (w w' : Z) :
  0 < w -> w <= w' -> lex_le (intForm w) (intForm w').
Proof.
  intros Hw H. apply nf_mono; try lia; try (apply int_enough; lia).
Qed.

(** [weiToEth w], for [w > 0]: the quotient by [10^18] of [w] rounded,
    rounded; or infinite when [Number(w)] is. *)
Lemma weiToEth_pos (w : Z) :
  0 < w ->
  weiToEth w
  = if snd (intForm w) <=? emax - prec
    then roundAt (units (intForm w) * 2 ^ 53) (Z.pos mant_1e18) (-112)
    else S754_infinity false.
Proof.
  intros Hw. unfold weiToEth.
  rewrite ofInteger_1e18, (ofInteger_roundAt w Hw), roundAt_nf.
  fold (intForm w).
  destruct (intForm_canon w Hw) as ((B & _ & _) & E & M).
  unfold units.
  destruct (intForm w) as [m e]; cbn [fst snd] in *.
  unfold pack; cbn [fst snd].
  destruct m as [|p|p]; try lia.
  destruct (e <=? emax - prec); [|reflexivity].
  rewrite div_roundAt; [ | unfold is53; lia | apply is53_1e18 | lia ].
  pose proof (pow2_gt0 (e + 52) ltac:(lia)) as P.
  rewrite <- (roundAt_rescale (Z.pos p * 2 ^ 53) (Z.pos mant_1e18)
                (e - 7 - 53) (e + 52)).
  - f_equal; [ring | lia].
  - lia.
  - lia.
  - lia.
  - destruct (quot_enough (Z.pos p * 2 ^ 53) mant_1e18 0) as [D|D];
      [nia | apply is53_1e18 | exact D | lia].
Qed.

Lemma pack_nonneg (x : Z * Z) :
  0 <= fst x ->
  SFleb (S754_zero false) (pack x) = true /\
  SFleb (pack x) (S754_infinity false) = true.
Proof.
  intros H. destruct x as [m e]; unfold pack; cbn [fst snd] in *.
  destruct m as [|p|p]; try lia.
  - split; reflexivity.
  - destruct (e <=? emax - prec); split; reflexivity.
Qed.

(** [weiToEth] of a non-negative amount lies between [+0] and
    [+Infinity]; it is not [NaN]. *)
Lemma weiToEth_range (w : Z) :
  0 <= w ->
  SFleb (S754_zero false) (weiToEth w) = true /\
  SFleb (weiToEth w) (S754_infinity false) = true.
Proof.
  intros Hw. destruct (Z.eq_dec w 0) as [->|N].
  - split; reflexivity.
  - rewrite weiToEth_pos by lia.
    destruct (_ <=? _); [|split; reflexivity].
    rewrite roundAt_nf. apply pack_nonneg.
    apply nf_inv; try lia.
    + destruct (intForm_canon w ltac:(lia)) as ((B & _) & E & M).
      unfold units. pose proof (pow2_gt0 (snd (intForm w) + 52) ltac:(lia)). nia.
    + apply quot_enough; [|apply is53_1e18].
      destruct (intForm_canon w ltac:(lia)) as ((B & _) & E & M).
      unfold units. pose proof (pow2_gt0 (snd (intForm w) + 52) ltac:(lia)). nia.
Qed.

Lemma RNE_exact (q b : Z) : 0 < b -> RNE (q * b) b = q.
Proof.
  intros Hb. unfold RNE. rewrite Z.mod_mul, Z.div_mul by lia.
  destruct (Z.compare_spec (2 * 0) b); try reflexivity; lia.
Qed.

(** Below [2^53] the conversion of an integer is exact. *)
Lemma intForm_exact (w : Z) :
  0 < w < 2 ^ 53 ->
  units (intForm w) = w * 2 ^ 52 /\ snd (intForm w) <= 0.
Proof.
  intros [Hw Hlt].
  pose proof (Zdigits2_spec w Hw) as [L U].
  pose proof (Zdigits2_lt_pow w 53 ltac:(lia) ltac:(lia)) as D.
  pose proof (Zdigits2_ge_pow w 0 ltac:(lia) ltac:(simpl; lia)) as D1.
  unfold units, intForm, nf, cexp.
  rewrite Z.div_1_r, Zdigits2_pow_mul by lia.
  set (d := Zdigits2 w) in *.
  replace (fexp prec emax (d + 52 + -52)) with (d - 53) by (rewrite fexp_eq; lia).
  replace (d - 53 - -52) with (d - 1) by lia.
  rewrite Z.mul_1_l.
  assert (R : RNE (w * 2 ^ 52) (2 ^ (d - 1)) = w * 2 ^ (53 - d)).
  { replace (w * 2 ^ 52) with (w * 2 ^ (53 - d) * 2 ^ (d - 1)).
    - apply RNE_exact. apply pow2_gt0; lia.
    - rewrite <- Z.mul_assoc, <- Z.pow_add_r by lia. do 2 f_equal. lia. }
  rewrite !R.
  assert (B : w * 2 ^ (53 - d) < 2 ^ 53).
  { replace 53 with (d + (53 - d)) at 2 by lia.
    rewrite Z.pow_add_r by lia.
    apply Z.mul_lt_mono_pos_r; [apply pow2_gt0; lia | assumption]. }
  unfold normal.
  destruct (Z.eqb_spec (w * 2 ^ (53 - d)) (2 ^ 53)) as [E|E]; [lia|].
  cbn [fst snd]. split; [|lia].
  rewrite <- Z.mul_assoc, <- Z.pow_add_r by lia. do 2 f_equal. lia.
Qed.

Lemma ofInteger_1000 : ofInteger 1000 = S754_finite false mant_1000 (-43).
Proof. vm_compute. reflexivity. Qed.

Lemma is53_1000 : is53 mant_1000.
Proof. unfold is53, mant_1000. simpl. lia. Qed.

Lemma seconds_roundAt (now : Z) :
  0 < now < 2 ^ 53 ->
  div (ofInteger now) (ofInteger 1000)
  = roundAt (now * 2 ^ 105) (Z.pos mant_1000) (-62).
Proof.
  intros Hn.
  rewrite ofInteger_1000, (ofInteger_roundAt now) by lia. rewrite roundAt_nf.
  fold (intForm now).
  destruct (intForm_canon now ltac:(lia)) as ((B & _ & _) & E & M).
  destruct (intForm_exact now Hn) as [U S].
  unfold units in U.
  destruct (intForm now) as [m e]; cbn [fst snd] in *.
  unfold pack; cbn [fst snd].
  destruct m as [|p|p]; try lia.
  replace (e <=? emax - prec) with true
    by (symmetry; apply Z.leb_le; unfold emax, prec; lia).
  rewrite div_roundAt; [ | unfold is53; lia | apply is53_1000 | lia ].
  pose proof (pow2_gt0 (e + 52) ltac:(lia)) as P.
  rewrite <- (roundAt_rescale (Z.pos p * 2 ^ 53) (Z.pos mant_1000)
                (e - -43 - 53) (e + 52)).
  - f_equal; [|lia].
    replace (now * 2 ^ 105) with (now * 2 ^ 52 * 2 ^ 53)
      by (rewrite <- Z.mul_assoc; reflexivity).
    rewrite <- U. ring.
  - lia.
  - lia.
  - lia.
  - destruct (quot_enough (Z.pos p * 2 ^ 53) mant_1000 0) as [D|D];
      [nia | apply is53_1000 | exact D | lia].
Qed.

(** [Math.floor(now / 1000)] is the integer quotient, for a clock
    reading below [2^53]. *)
Lemma seconds_floor (now : Z) :
  0 <= now < 2 ^ 53 ->
  floor (div (ofInteger now) (ofInteger 1000)) = ofInteger (now / 1000).
Proof.
  intros [H0 Hlt].
  destruct (Z.eq_dec now 0) as [->|N]; [reflexivity|].
  rewrite seconds_roundAt by lia.
  set (A := now * 2 ^ 105). set (B := Z.pos mant_1000).
  assert (HB : B = 1000 * 2 ^ 43) by reflexivity.
  assert (HA : 2 ^ 105 <= A < 2 ^ 53 * 2 ^ 105) by (unfold A; lia).
  assert (Q1 : 2 ^ 52 <= A / B).
  { apply Z.div_le_lower_bound; [reflexivity|]. rewrite HB. lia. }
  assert (Q2 : A / B < 2 ^ 106).
  { apply Z.div_lt_upper_bound; [reflexivity|]. rewrite HB. lia. }
  pose proof (Zdigits2_ge_pow _ 52 ltac:(lia) Q1) as D1.
  pose proof (Zdigits2_lt_pow (A / B) 106 ltac:(lia) ltac:(lia)) as D2.
  unfold roundAt, nf, cexp.
  set (D := Zdigits2 (A / B)) in *.
  replace (fexp prec emax (D + -62)) with (D - 115) by (rewrite fexp_eq; lia).
  replace (D - 115 - -62) with (D - 53) by lia.
  set (j := 115 - D).
  pose proof (pow2_gt0 j ltac:(lia)) as Pj.
  pose proof (pow2_gt0 (D - 53) ltac:(lia)) as Pn.
  assert (R : RNE A (B * 2 ^ (D - 53)) = RNE (now * 2 ^ j) 1000).
  { apply RNE_ext; [lia | lia |].
    unfold A. rewrite HB.
    replace 105 with (j + 43 + (D - 53)) by (unfold j; lia).
    rewrite !Z.pow_add_r by lia. ring. }
  rewrite R. clear R.
  set (m := RNE (now * 2 ^ j) 1000).
  set (k := now / 1000).
  pose proof (Z.div_mod now 1000 ltac:(lia)) as DM. fold k in DM.
  pose proof (Z.mod_pos_bound now 1000 ltac:(lia)) as MB.
  assert (J : 512 <= 2 ^ j).
  { change 512 with (2 ^ 9). apply Z.pow_le_mono_r; unfold j; lia. }
  assert (Lo : k * 2 ^ j <= m).
  { pose proof (RNE_bounds (now * 2 ^ j) 1000) as [Lb _]. fold m in Lb.
    assert (k * 2 ^ j <= now * 2 ^ j / 1000)
      by (apply Z.div_le_lower_bound; nia).
    lia. }
  assert (Hi : m < (k + 1) * 2 ^ j).
  { pose proof (RNE_half (now * 2 ^ j) 1000 ltac:(lia)) as Hh. fold m in Hh.
    nia. }
  assert (Mk : m / 2 ^ j = k).
  { symmetry. apply (Z.div_unique_pos m (2 ^ j) k (m - k * 2 ^ j)); lia. }
  assert (M52 : 2 ^ 52 <= m).
  { pose proof (RNE_bounds (now * 2 ^ j) 1000) as [Lb _]. fold m in Lb.
    assert (2 ^ 52 <= now * 2 ^ j / 1000); [|lia].
    apply Z.div_le_lower_bound; [lia|].
    pose proof (Zdigits2_spec (A / B) ltac:(lia)) as [L _]. fold D in L.
    assert (La : 2 ^ (D - 1) * B <= A).
    { pose proof (Z.mul_div_le A B ltac:(reflexivity)). nia. }
    unfold A in La. rewrite HB in La.
    replace (D - 1) with (52 + (D - 53)) in La by lia.
    replace 105 with (j + 43 + (D - 53)) in La by (unfold j; lia).
    rewrite !Z.pow_add_r in La by lia.
    pose proof (pow2_gt0 43 ltac:(lia)).
    nia. }
  assert (M53 : m <= 2 ^ 53).
  { pose proof (shifted_lt A B (-62) ltac:(lia) ltac:(reflexivity)
                  ltac:(left; fold D; lia)) as S.
    unfold cexp in S. fold D in S.
    replace (fexp prec emax (D + -62) - -62) with (D - 53) in S
      by (rewrite fexp_eq; lia).
    pose proof (RNE_bounds A (B * 2 ^ (D - 53))) as [_ Ub].
    assert (R : RNE A (B * 2 ^ (D - 53)) = RNE (now * 2 ^ j) 1000).
    { apply RNE_ext; [lia | lia |].
      unfold A. rewrite HB.
      replace 105 with (j + 43 + (D - 53)) by (unfold j; lia).
      rewrite !Z.pow_add_r by lia. ring. }
    rewrite R in Ub. fold m in Ub. lia. }
  unfold normal.
  destruct (Z.eqb_spec m (2 ^ 53)) as [E|E].
  - unfold pack; cbn [fst snd].
    replace (D - 115 + 1 <=? emax - prec) with true
      by (symmetry; apply Z.leb_le; unfold emax, prec; lia).
    change (2 ^ 52) with (Z.pos 4503599627370496).
    unfold floor.
    replace (0 <=? D - 115 + 1) with false by (symmetry; apply Z.leb_gt; lia).
    cbn [cond_Zopp]. rewrite Z.shiftr_div_pow2 by lia.
    replace (- (D - 115 + 1)) with (j - 1) by (unfold j; lia).
    assert (K : Z.pos 4503599627370496 / 2 ^ (j - 1) = k).
    { rewrite <- Mk, E.
      replace j with ((j - 1) + 1) at 2 by lia.
      rewrite Z.pow_add_r by lia.
      change (2 ^ 53) with (Z.pos 4503599627370496 * 2 ^ 1).
      rewrite Z.div_mul_cancel_r; [reflexivity | | discriminate].
      pose proof (pow2_gt0 (j - 1) ltac:(lia)). lia. }
    rewrite K.
    destruct (Z.eqb_spec k 0) as [-> | Nk]; reflexivity.
  - destruct m as [|p|p] eqn:Em; try lia.
    unfold pack; cbn [fst snd].
    replace (D - 115 <=? emax - prec) with true
      by (symmetry; apply Z.leb_le; unfold emax, prec; lia).
    unfold floor.
    replace (0 <=? D - 115) with false by (symmetry; apply Z.leb_gt; lia).
    cbn [cond_Zopp]. rewrite Z.shiftr_div_pow2 by lia.
    replace (- (D - 115)) with j by (unfold j; lia).
    rewrite Mk.
    destruct (Z.eqb_spec k 0) as [-> | Nk]; reflexivity.
Qed.


(* ------------------------------------------------------------------ *)
(** ** Strings: basic facts *)

Lemma toLowerCase_length (s : string) :
  String.length (JSString.toLowerCase s) = String.length s.
Proof. induction s as [|c r IH]; simpl; [reflexivity | now rewrite IH]. Qed.

Lemma lowerUnit_idem (c : ascii) :
  JSString.lowerUnit (JSString.lowerUnit c) = JSString.lowerUnit c.
Proof.
  destruct c as [[] [] [] [] [] [] [] []]; reflexivity.
Qed.

Lemma toLowerCase_idem (s : string) :
  JSString.toLowerCase (JSString.toLowerCase s) = JSString.toLowerCase s.
Proof.
  induction s as [|c r IH]; simpl; [reflexivity|].
  now rewrite lowerUnit_idem, IH.
Qed.

Lemma substring_prefix (pre rest : string) :
  substring 0 (String.length pre) (pre ++ rest) = pre.
Proof.
  induction pre as [|c r IH]; simpl.
  - now destruct rest.
  - now rewrite IH.
Qed.

Lemma append_length (a b : string) :
  String.length (a ++ b) = (String.length a + String.length b)%nat.
Proof. induction a as [|c r IH]; simpl; [reflexivity | now rewrite IH]. Qed.

Lemma substring_length_0 (n : nat) (s : string) :
  (n <= String.length s)%nat -> String.length (substring 0 n s) = n.
Proof.
  revert n; induction s as [|c r IH]; intros [|n] H; simpl in *;
    try reflexivity; try lia.
  rewrite IH by lia; reflexivity.
Qed.

Lemma split_at (n : nat) (s : string) :
  (n <= String.length s)%nat ->
  exists rest, s = substring 0 n s ++ rest.
Proof.
  revert n; induction s as [|c r IH]; intros [|n] H; simpl in *; try lia.
  - now exists EmptyString.
  - now exists (String c r).
  - destruct (IH n) as [rest E]; [lia|].
    exists rest. now rewrite <- E.
Qed.

Lemma slice_0_10 (s : string) :
  10 <= JSString.length s -> JSString.slice s 0 10 = substring 0 10 s.
Proof.
  intros H. unfold JSString.slice. simpl (0 <? 0). simpl (10 <? 0).
  cbv iota. rewrite !Z.min_l by lia. reflexivity.
Qed.

Lemma selectorOf_long (s : string) :
  10 <= JSString.length s ->
  selectorOf (Some s) = JSString.toLowerCase (substring 0 10 s).
Proof.
  intros H. unfold selectorOf.
  replace (JSString.length s <? 10) with false by (symmetry; apply Z.ltb_ge; lia).
  destruct s as [|c r]; [unfold JSString.length in H; simpl in H; lia|].
  simpl (JSString.falsy _ || false). cbv iota.
  now rewrite slice_0_10.
Qed.

Lemma selectorOf_short (s : string) :
  JSString.length s < 10 -> selectorOf (Some s) = "0x00000000".
Proof.
  intros H. unfold selectorOf.
  replace (JSString.length s <? 10) with true by (symmetry; apply Z.ltb_lt; lia).
  now rewrite orb_true_r.
Qed.

Lemma selectorOf_prefix (pre rest : string) :
  String.length pre = 10%nat ->
  selectorOf (Some (pre ++ rest)) = JSString.toLowerCase pre.
Proof.
  intros L. rewrite selectorOf_long.
  - rewrite <- L at 1. now rewrite substring_prefix.
  - unfold JSString.length. rewrite append_length. lia.
Qed.

Lemma selectorOf_plain (d : option string) :
  plainTransfer d -> selectorOf (Some (nullish d "0x")) = "0x00000000".
Proof.
  destruct d as [s|]; simpl; intros H; [now apply selectorOf_short | reflexivity].
Qed.

(** C2. Selector extraction.  An absent input, and every string of
    fewer than 10 code units (the empty string among them), gives the
    sentinel [0x00000000]; so does the data of a transaction that has
    none, which [matchRules] reads as [0x].  A string of at least 10
    code units gives its first 10 code units in lower case:
    lower-casing the result leaves it as it is, and two inputs whose
    first 10 code units differ only by case give the same selector. *)
Theorem C2_selectorOf_policy :
  selectorOf None = "0x00000000" /\
  selectorOf (Some EmptyString) = "0x00000000" /\
  (forall s, JSString.length s < 10 -> selectorOf (Some s) = "0x00000000") /\
  (forall d, plainTransfer d ->
     selectorOf (Some (nullish d "0x")) = "0x00000000") /\
  (forall s, 10 <= JSString.length s ->
     selectorOf (Some s) = JSString.toLowerCase (JSString.slice s 0 10) /\
     (exists rest, s = JSString.slice s 0 10 ++ rest) /\
     JSString.length (JSString.slice s 0 10) = 10 /\
     JSString.toLowerCase (selectorOf (Some s)) = selectorOf (Some s)) /\
  (forall pre rest, String.length pre = 10%nat ->
     selectorOf (Some (pre ++ rest)) = JSString.toLowerCase pre) /\
  (forall pre pre' rest rest',
     String.length pre = 10%nat -> String.length pre' = 10%nat ->
     JSString.toLowerCase pre = JSString.toLowerCase pre' ->
     selectorOf (Some (pre ++ rest)) = selectorOf (Some (pre' ++ rest'))).
Proof.
  pose proof selectorOf_prefix as P.
  repeat split; try reflexivity.
  - apply selectorOf_short.
  - apply selectorOf_plain.
  - rewrite slice_0_10 by assumption. now apply selectorOf_long.
  - rewrite slice_0_10 by assumption. apply split_at.
    unfold JSString.length in H. lia.
  - rewrite slice_0_10 by assumption. unfold JSString.length in *.
    rewrite substring_length_0; lia.
  - rewrite selectorOf_long by assumption. apply toLowerCase_idem.
  - exact P.
  - intros pre pre' rest rest' L L' E. rewrite !P; trivial.
Qed.

Lemma C2_selectorOf_policy_witness :
  selectorOf (Some "0x") = "0x00000000" /\
  selectorOf (Some "0xA9059CBB000000000000000000000000deadBEEF") = "0xa9059cbb" /\
  selectorOf (Some ("0xA9059cbb" ++ "0001"))
  = selectorOf (Some ("0xa9059CBB" ++ "ffff")).
Proof.
  destruct C2_selectorOf_policy as (_ & _ & Hs & _ & Hl & Hp & Hc).
  split; [| split].
  - apply (Hs "0x"). vm_compute. reflexivity.
  - destruct (Hl "0xA9059CBB000000000000000000000000deadBEEF") as (E & _).
    + vm_compute. discriminate.
    + rewrite E. reflexivity.
  - apply (Hc "0xA9059cbb" "0xa9059CBB" "0001" "ffff"); reflexivity.
Defined.

(* ------------------------------------------------------------------ *)
(** ** The matcher and its checks *)

Lemma fold_push (cs : list Check) (acc : list string) :
  fold_left (fun acc c => if fires c then push acc (message c) else acc) cs acc
  = (acc ++ map message (filter fires cs))%list.
Proof.
  revert acc; induction cs as [|c cs IH]; intros acc; simpl.
  - now rewrite app_nil_r.
  - rewrite IH. destruct (fires c); simpl; [|reflexivity].
    unfold push. now rewrite <- app_assoc.
Qed.

Lemma runChecks_reason (cs : list Check) :
  reason (runChecks cs) = map message (filter fires cs).
Proof. unfold runChecks; simpl. now rewrite fold_push. Qed.

Lemma runChecks_ok (cs : list Check) :
  ok (runChecks cs) = forallb (fun c => negb (fires c)) cs.
Proof.
  unfold runChecks; simpl. rewrite fold_push; simpl.
  induction cs as [|c cs IH]; simpl; [reflexivity|].
  destruct (fires c); simpl; [reflexivity | exact IH].
Qed.

Lemma forallb_Permutation {A : Type} (f : A -> bool) (l l' : list A) :
  Permutation l l' -> forallb f l = forallb f l'.
Proof.
  induction 1 as [| x l l' _ IH | x y l | l l' l'' _ IH1 _ IH2]; simpl.
  - reflexivity.
  - now rewrite IH.
  - destruct (f x), (f y); reflexivity.
  - now rewrite IH1.
Qed.

Lemma matchRules_runChecks (tx : TransactionResponse) (rules : Rule) :
  matchRules tx rules = runChecks (checks tx rules).
Proof.
  unfold matchRules, runChecks, checks, valueCheck, allowCheck, denyCheck,
    watchCheck, selOf, ethOf.
  destruct (minEth rules) as [m|], (allowSelectors rules) as [al|],
    (denySelectors rules) as [de|], (watchRecipients rules) as [wa|];
    cbn [fold_left fires message];
    repeat match goal with
           | |- context [if ?b then _ else _] => destruct b
           end; reflexivity.
Qed.

Lemma matchRules_reason (tx : TransactionResponse) (rules : Rule) :
  reason (matchRules tx rules) = map message (filter fires (checks tx rules)).
Proof. rewrite matchRules_runChecks. apply runChecks_reason. Qed.

Lemma matchRules_ok (tx : TransactionResponse) (rules : Rule) :
  ok (matchRules tx rules)
  = forallb (fun c => negb (fires c)) (checks tx rules).
Proof. rewrite matchRules_runChecks. apply runChecks_ok. Qed.

(** C1. [matchRules] performs the four checks (minimum value, allow
    list, deny list, watched recipient) one after the other and none of
    them is skipped because an earlier one fired: its reasons are the
    messages of the checks that fire, in that order, and it accepts
    exactly when no check fires.  Performing the same four checks in
    any other order gives the same accept/reject outcome. *)
Theorem C1_checks_all_evaluated_in_order
    (tx : TransactionResponse) (rules : Rule) :
  matchRules tx rules = runChecks (checks tx rules) /\
  reason (matchRules tx rules)
    = map message (filter fires
        [valueCheck tx rules; allowCheck tx rules;
         denyCheck tx rules; watchCheck tx rules]) /\
  ok (matchRules tx rules)
    = negb (fires (valueCheck tx rules)) && negb (fires (allowCheck tx rules)) &&
      negb (fires (denyCheck tx rules)) && negb (fires (watchCheck tx rules)) /\
  (forall cs, Permutation (checks tx rules) cs ->
     ok (runChecks cs) = ok (matchRules tx rules)).
Proof.
  rewrite matchRules_runChecks. repeat split.
  - apply runChecks_reason.
  - rewrite runChecks_ok. unfold checks; simpl.
    now rewrite andb_true_r, !andb_assoc.
  - intros cs P. rewrite !runChecks_ok. symmetry. now apply forallb_Permutation.
Qed.

Lemma C1_checks_all_evaluated_in_order_witness :
  reason (matchRules txAllFail rulesAll)
    = ["value<0.5"; "!allowed:0x095ea7b3"; "denied:0x095ea7b3"; "!watched:to"] /\
  ok (runChecks (rev (checks txAllFail rulesAll)))
    = ok (matchRules txAllFail rulesAll).
Proof.
  destruct (C1_checks_all_evaluated_in_order txAllFail rulesAll)
    as (_ & R & _ & P).
  split.
  - rewrite R. vm_compute. reflexivity.
  - apply P. apply Permutation_rev.
Defined.

(** C4. The verdict of [matchRules] is accepted exactly when its list
    of reasons is empty. *)
Theorem C4_ok_iff_no_reason (tx : TransactionResponse) (rules : Rule) :
  ok (matchRules tx rules) = true <-> reason (matchRules tx rules) = [].
Proof.
  rewrite matchRules_runChecks. unfold runChecks.
  cbn [ok reason].
  destruct (fold_left _ (checks tx rules) []) as [|r rs]; simpl;
    split; congruence.
Qed.

(** C5. With [minEth] unset and each of the three lists unset or
    empty, [matchRules] accepts every transaction, with no reason. *)
Theorem C5_empty_rules_accept_all (tx : TransactionResponse) (rules : Rule) :
  minEth rules = None ->
  unsetOrEmpty (allowSelectors rules) ->
  unsetOrEmpty (denySelectors rules) ->
  unsetOrEmpty (watchRecipients rules) ->
  matchRules tx rules = {| ok := true; reason := [] |}.
Proof.
  intros Hm [Ha|Ha] [Hd|Hd] [Hw|Hw]; unfold matchRules;
    rewrite Hm, Ha, Hd, Hw; reflexivity.
Qed.

Lemma C5_empty_rules_accept_all_witness :
  matchRules
    {| hash := "0x1"; from := Some "0xdef"; to := Some "0xabc";
       value := Some (2 * 10 ^ 18); data := Some "0x095ea7b300";
       nonce := ofInteger 5 |}
    {| minEth := None; allowSelectors := None; denySelectors := Some [];
       watchRecipients := None |}
  = {| ok := true; reason := [] |}.
Proof.
  apply C5_empty_rules_accept_all.
  - reflexivity.
  - left; reflexivity.
  - right; reflexivity.
  - left; reflexivity.
Defined.

Lemma includes_In (arr : list string) (s : string) :
  JSString.includes arr s = true <-> In s arr.
Proof.
  unfold JSString.includes. rewrite existsb_exists. split.
  - intros (x & Hx & E). apply String.eqb_eq in E. now subst.
  - intros H. exists s. split; [assumption | apply String.eqb_refl].
Qed.



(** C10. When [allowSelectors] is a non-empty list without the
    sentinel [0x00000000], every transaction whose data is absent,
    empty or shorter than 10 code units is rejected, and
    [!allowed:0x00000000] is among the reasons. *)
Theorem C10_allow_list_rejects_plain_transfers
    (tx : TransactionResponse) (rules : Rule) (allow : list string) :
  allowSelectors rules = Some allow ->
  allow <> [] ->
  ~ In "0x00000000" allow ->
  plainTransfer (data tx) ->
  ok (matchRules tx rules) = false /\
  In "!allowed:0x00000000" (reason (matchRules tx rules)).
Proof.
  intros Ha Hne Hin Hd.
  assert (F : fires (allowCheck tx rules) = true).
  { unfold allowCheck, selOf; cbn [fires].
    rewrite Ha, (selectorOf_plain _ Hd).
    apply andb_true_intro; split.
    - destruct allow; [congruence | reflexivity].
    - apply negb_true_iff. apply not_true_is_false.
      now rewrite includes_In. }
  assert (M : message (allowCheck tx rules) = "!allowed:0x00000000").
  { unfold allowCheck, selOf; cbn [message].
    now rewrite (selectorOf_plain _ Hd). }
  split.
  - rewrite matchRules_ok. unfold checks; cbn [forallb]. rewrite F; simpl.
    apply andb_false_r.
  - rewrite matchRules_reason, <- M. apply in_map. apply filter_In.
    split; [|exact F].
    unfold checks; simpl; auto.
Qed.

Lemma C10_allow_list_rejects_plain_transfers_witness :
  ok (matchRules txPlain rulesAllowTransfer) = false /\
  In "!allowed:0x00000000" (reason (matchRules txPlain rulesAllowTransfer)).
Proof.
  apply (C10_allow_list_rejects_plain_transfers
           txPlain rulesAllowTransfer ["0xa9059cbb"]).
  - reflexivity.
  - discriminate.
  - simpl. intros [E|[]]. discriminate E.
  - vm_compute. reflexivity.
Defined.

(* ------------------------------------------------------------------ *)
(** ** The scenarios *)

Lemma weiToEth_2e18 : weiToEth (2 * 10 ^ 18) = ofInteger 2.
Proof. vm_compute. reflexivity. Qed.

(** C6. Under [{minEth: 0.5, denySelectors: ["0x095ea7b3"]}] a
    transaction of value 2 * 10^18 whose data begins with [0x095ea7b3]
    is rejected; [denied:0x095ea7b3] is among the reasons (it is the
    only one) and no reason is about the value, the converted amount
    being 2, which is not below 0.5. *)
Theorem C6_denied_selector_scenario
    (h : string) (f t : option string) (n : number) (rest : string) :
  let tx := {| hash := h; from := f; to := t; value := Some (2 * 10 ^ 18);
               data := Some ("0x095ea7b3" ++ rest); nonce := n |} in
  ok (matchRules tx rulesValueDeny) = false /\
  In "denied:0x095ea7b3" (reason (matchRules tx rulesValueDeny)) /\
  ~ In "value<0.5" (reason (matchRules tx rulesValueDeny)) /\
  reason (matchRules tx rulesValueDeny) = ["denied:0x095ea7b3"] /\
  weiToEth (2 * 10 ^ 18) = ofInteger 2 /\
  ltb (ofInteger 2) lit_0_5 = false.
Proof.
  intros tx.
  assert (S : selectorOf (Some (nullish (data tx) "0x")) = "0x095ea7b3").
  { unfold tx; cbn [data nullish]. now rewrite selectorOf_prefix. }
  assert (R : matchRules tx rulesValueDeny
              = {| ok := false; reason := ["denied:0x095ea7b3"] |}).
  { unfold matchRules. rewrite S.
    unfold tx, rulesValueDeny; cbn [value nullish minEth allowSelectors
      denySelectors watchRecipients].
    rewrite weiToEth_2e18. reflexivity. }
  rewrite R; cbn [ok reason]. repeat split.
  - simpl; auto.
  - simpl. intros [E|[]]. discriminate E.
Qed.

(** C7. Under the same rule set a transaction of value 10^17 with data
    [0x] is rejected with the single reason [value<0.5]: the converted
    amount is 0.1, below 0.5; the selector is the sentinel
    [0x00000000], which the deny list does not hold. *)
Theorem C7_below_threshold_scenario
    (h : string) (f t : option string) (n : number) :
  let tx := {| hash := h; from := f; to := t; value := Some (10 ^ 17);
               data := Some "0x"; nonce := n |} in
  matchRules tx rulesValueDeny = {| ok := false; reason := ["value<0.5"] |} /\
  weiToEth (10 ^ 17) = ofRatio 1 10 /\
  toString (weiToEth (10 ^ 17)) = "0.1" /\
  ltb (weiToEth (10 ^ 17)) lit_0_5 = true /\
  selectorOf (Some (nullish (data tx) "0x")) = "0x00000000" /\
  JSString.includes ["0x095ea7b3"] "0x00000000" = false.
Proof.
  intros tx. repeat split; vm_compute; reflexivity.
Qed.

(** C8. Under [{watchRecipients: ["0xaaa"]}] a transaction sent to
    [0xBBB] is rejected with the single reason [!watched:to]: the
    recipient is put in lower case, [0xbbb], and that is not in the
    watch list. *)
Theorem C8_unwatched_recipient_scenario
    (h : string) (f : option string) (v : option Z) (d : option string)
    (n : number) :
  let tx := {| hash := h; from := f; to := Some "0xBBB"; value := v;
               data := d; nonce := n |} in
  matchRules tx rulesWatch = {| ok := false; reason := ["!watched:to"] |} /\
  JSString.toLowerCase (nullish (to tx) EmptyString) = "0xbbb" /\
  JSString.includes ["0xaaa"] "0xbbb" = false.
Proof.
  intros tx. repeat split.
Qed.

(* ------------------------------------------------------------------ *)
(** ** The alert *)

(** C3, as the claim words it, fails: the alert of an accepted
    transaction has no property named [timestamp], so its properties
    are not [type], [hash], [from], [to], [eth], [selector], [nonce],
    [timestamp]. *)
Lemma C3_timestamp_field_counterexample :
  ok (matchRules txTransfer RULES) = true /\
  ~ (exists alert : JSON.object,
       pendingAlert (Found txTransfer) 1700000000123 = Some alert /\
       map fst alert = keysWithTimestamp) /\
  ~ In "timestamp" (map fst (alertOf txTransfer 1700000000123)).
Proof.
  split; [vm_compute; reflexivity|]. split.
  - intros (alert & P & K).
    assert (E : alert = alertOf txTransfer 1700000000123).
    { unfold pendingAlert in P.
      replace (ok (matchRules txTransfer RULES)) with true in P
        by (vm_compute; reflexivity).
      cbn [negb] in P. congruence. }
    subst alert. unfold alertOf, keysWithTimestamp in K. cbn [map fst] in K.
    discriminate K.
  - unfold alertOf. cbn [map fst In].
    intros [E|[E|[E|[E|[E|[E|[E|[E|[]]]]]]]]]; discriminate E.
Qed.

(** C3, amended: the time stamp is the property [ts].  For a
    transaction [matchRules] accepts under [RULES], the
    handler builds one alert and prints it as one line.  The record
    has exactly eight properties, in this order: [type], which is
    ["mempool_alert"]; [hash]; [from] in lower case; [to] in lower
    case, the empty string when the recipient is absent; [eth], the
    converted value; [selector]; [nonce]; and the time stamp, which
    the code names [ts], the floor of the clock's milliseconds divided
    by 1000.  For a clock
    reading [now] with [0 <= now < 2^53] milliseconds that Number is
    the integer [now / 1000], the whole seconds since the epoch. *)
Theorem C3_alert_record (tx : TransactionResponse) (now : Z) :
  ok (matchRules tx RULES) = true ->
  exists alert : JSON.object,
    pendingAlert (Found tx) now = Some alert /\
    onPending (Found tx) now = [JSON.stringify alert] /\
    map fst alert
      = ["type"; "hash"; "from"; "to"; "eth"; "selector"; "nonce"; "ts"] /\
    map snd alert
      = [ JSON.VString "mempool_alert";
          JSON.VString (hash tx);
          JSON.VString (JSString.toLowerCase (nullish (from tx) EmptyString));
          JSON.VString (JSString.toLowerCase (nullish (to tx) EmptyString));
          JSON.VNumber (weiToEth (nullish (value tx) 0));
          JSON.VString (selectorOf (Some (nullish (data tx) "0x")));
          JSON.VNumber (nonce tx);
          JSON.VNumber (floor (div (ofInteger now) (ofInteger 1000))) ] /\
    (to tx = None -> In ("to", JSON.VString EmptyString) alert) /\
    (0 <= now < 2 ^ 53 ->
     In ("ts", JSON.VNumber (ofInteger (now / 1000))) alert).
Proof.
  intros A. exists (alertOf tx now).
  unfold onPending, pendingAlert. rewrite A. cbn [negb].
  repeat split.
  - intros T. unfold alertOf. rewrite T. cbn [nullish JSString.toLowerCase].
    simpl; auto.
  - intros N. unfold alertOf. rewrite (seconds_floor now N).
    simpl; auto 10.
Qed.

Lemma C3_alert_record_witness :
  exists alert : JSON.object,
    onPending (Found txCreate) 1700000000123 = [JSON.stringify alert] /\
    In ("to", JSON.VString EmptyString) alert /\
    In ("ts", JSON.VNumber (ofInteger 1700000000)) alert.
Proof.
  destruct (C3_alert_record txCreate 1700000000123)
    as (alert & _ & P & _ & _ & T & S).
  - vm_compute. reflexivity.
  - exists alert. split; [exact P | split].
    + apply T. reflexivity.
    + apply S. split; [discriminate | reflexivity].
Defined.


(* ------------------------------------------------------------------ *)
(** ** Amount conversion *)

(** C9. [weiToEth] is monotonic on non-negative amounts: for integers
    [0 <= a < b], [weiToEth a <= weiToEth b] as Numbers, where
    [weiToEth w] is the binary64 quotient of [Number(w)], the binary64
    value nearest to [w], by [1e18]. *)
Theorem C9_weiToEth_monotone (a b : Z) :
  0 <= a -> a < b -> leb (weiToEth a) (weiToEth b) = true.
Proof.
  intros Ha Hab. unfold leb.
  destruct (Z.eq_dec a 0) as [->|N].
  - apply (weiToEth_range b). lia.
  - pose proof (intForm_mono a b ltac:(lia) ltac:(lia)) as L.
    destruct (intForm_canon a ltac:(lia)) as (Ca & Ea & Ma).
    destruct (intForm_canon b ltac:(lia)) as (Cb & Eb & Mb).
    pose proof (lex_units _ _ Ca Cb L Ea) as U.
    pose proof (weiToEth_range a ltac:(lia)) as [_ Ra].
    rewrite (weiToEth_pos b) by lia.
    destruct (Z.leb_spec (snd (intForm b)) (emax - prec)) as [Sb|Sb];
      [|exact Ra].
    rewrite (weiToEth_pos a) by lia.
    assert (Sa : snd (intForm a) <= emax - prec) by (unfold lex_le in L; lia).
    apply Z.leb_le in Sa. rewrite Sa.
    pose proof (pow2_gt0 (snd (intForm a) + 52) ltac:(lia)).
    pose proof (pow2_gt0 (snd (intForm b) + 52) ltac:(lia)).
    assert (2 ^ 52 <= units (intForm a)) by (unfold units; nia).
    assert (2 ^ 52 <= units (intForm b)) by (unfold units; nia).
    apply roundAt_mono; try lia.
    + apply quot_enough; [nia | apply is53_1e18].
    + apply quot_enough; [nia | apply is53_1e18].
    + nia.
Qed.

Lemma C9_weiToEth_monotone_witness :
  leb (weiToEth (10 ^ 17)) (weiToEth (10 ^ 17 + 1)) = true /\
  leb (weiToEth 0) (weiToEth (2 ^ 1024)) = true.
Proof.
  split.
  - apply C9_weiToEth_monotone; lia.
  - apply C9_weiToEth_monotone; [lia | reflexivity].
Defined.

(* ------------------------------------------------------------------ *)
(** ** Further properties: the selector *)

Lemma append_empty (s : string) : s ++ EmptyString = s.
Proof. induction s as [|c r IH]; simpl; [reflexivity | now rewrite IH]. Qed.

Lemma isAscii_length_10 (s : string) :
  isAscii s = true -> String.length (JSString.toLowerCase s) = String.length s.
Proof.
  induction s as [|c r IH]; simpl; intros H; [reflexivity|].
  apply andb_true_iff in H. now rewrite IH.
Qed.

Lemma lowerUnit_ascii (c : ascii) :
  (N_of_ascii c <? 128)%N = true ->
  (N_of_ascii (JSString.lowerUnit c) <? 128)%N = true.
Proof.
  destruct c as [[] [] [] [] [] [] [] []]; intros H;
    try reflexivity; discriminate H.
Qed.

Lemma isAscii_lower (s : string) :
  isAscii s = true -> isAscii (JSString.toLowerCase s) = true.
Proof.
  induction s as [|c r IH]; simpl; intros H; [reflexivity|].
  apply andb_true_iff in H. destruct H as [Hc Hr].
  now rewrite (lowerUnit_ascii c Hc), IH.
Qed.

Lemma isAscii_prefix (s : string) :
  isAscii s = true -> forall m, isAscii (substring 0 m s) = true.
Proof.
  induction s as [|c r IH]; intros H m.
  - destruct m; reflexivity.
  - simpl in H. apply andb_true_iff in H. destruct H as [Hc Hr].
    destruct m as [|m]; [reflexivity|]. simpl. now rewrite Hc, IH.
Qed.

Lemma asciiData_nullish (d : option string) :
  asciiData d = true -> asciiData (Some (nullish d "0x")) = true.
Proof. destruct d as [s|]; simpl; [trivial | reflexivity]. Qed.

Lemma selectorOf_ascii (i : option string) :
  asciiData i = true -> isAscii (selectorOf i) = true.
Proof.
  destruct i as [s|]; [|reflexivity]. cbn [asciiData]. intros A.
  destruct (Z.lt_ge_cases (JSString.length s) 10) as [H|H].
  - now rewrite selectorOf_short.
  - rewrite selectorOf_long by assumption.
    apply isAscii_lower. now apply isAscii_prefix.
Qed.

Lemma selectorOf_length (i : option string) :
  asciiData i = true -> JSString.length (selectorOf i) = 10.
Proof.
  destruct i as [s|]; [|reflexivity]. cbn [asciiData]. intros A.
  destruct (Z.lt_ge_cases (JSString.length s) 10) as [H|H].
  - now rewrite selectorOf_short.
  - rewrite selectorOf_long by assumption. unfold JSString.length in *.
    rewrite isAscii_length_10 by (now apply isAscii_prefix).
    rewrite substring_length_0; lia.
Qed.

Lemma selectorOf_lower (i : option string) :
  JSString.toLowerCase (selectorOf i) = selectorOf i.
Proof.
  destruct i as [s|]; [|reflexivity].
  destruct (Z.lt_ge_cases (JSString.length s) 10) as [H|H].
  - now rewrite selectorOf_short.
  - rewrite selectorOf_long by assumption. apply toLowerCase_idem.
Qed.

(** X1. On ASCII input (and hex data is ASCII) and on absent input,
    [selectorOf] returns exactly 10 ASCII code units in lower case, and
    extracting the selector of a selector gives it back. *)
Theorem X1_selectorOf_canonical (i : option string) :
  asciiData i = true ->
  canonicalSelector (selectorOf i) /\
  isAscii (selectorOf i) = true /\
  selectorOf (Some (selectorOf i)) = selectorOf i.
Proof.
  intros A.
  pose proof (selectorOf_length i A) as L.
  pose proof (selectorOf_lower i) as W.
  split; [split; assumption|]. split; [now apply selectorOf_ascii|].
  rewrite <- (append_empty (selectorOf i)) at 1.
  rewrite selectorOf_prefix; [exact W|].
  unfold JSString.length in L. lia.
Qed.

Lemma X1_selectorOf_canonical_witness :
  canonicalSelector (selectorOf (Some "0xA9059CBB00ff")) /\
  isAscii (selectorOf (Some "0xA9059CBB00ff")) = true /\
  selectorOf (Some (selectorOf (Some "0xA9059CBB00ff")))
  = selectorOf (Some "0xA9059CBB00ff").
Proof.
  apply (X1_selectorOf_canonical (Some "0xA9059CBB00ff")).
  vm_compute. reflexivity.
Defined.

Lemma includes_none (arr : list string) (s : string) :
  Forall (fun e => e <> s) arr -> JSString.includes arr s = false.
Proof.
  intros F. apply not_true_is_false. rewrite includes_In. intros I.
  rewrite Forall_forall in F. now apply (F s I).
Qed.

Lemma selector_not_in (arr : list string) (i : option string) :
  asciiData i = true ->
  Forall (fun e => ~ canonicalSelector e) arr ->
  JSString.includes arr (selectorOf i) = false.
Proof.
  intros A F. apply includes_none. rewrite Forall_forall in *.
  intros e I E. apply (F e I). subst e.
  split; [now apply selectorOf_length | apply selectorOf_lower].
Qed.

Lemma fires_rejects (tx : TransactionResponse) (rules : Rule) (c : Check) :
  In c (checks tx rules) -> fires c = true ->
  ok (matchRules tx rules) = false /\
  In (message c) (reason (matchRules tx rules)).
Proof.
  intros I F. split.
  - rewrite matchRules_ok. apply not_true_is_false. intros A.
    rewrite forallb_forall in A. specialize (A c I). now rewrite F in A.
  - rewrite matchRules_reason. apply in_map. apply filter_In. now split.
Qed.

(* ------------------------------------------------------------------ *)
(** ** Further properties: how the lists of a rule set behave *)

(** X2. Selector lists have to be written the way [selectorOf] writes
    selectors.  For a transaction whose data is absent or ASCII (hex
    data is), when no entry of a list is 10 code units in lower case:
    as a deny list it denies nothing (the verdict is that of the rule
    set without a deny list); as a non-empty allow list it rejects the
    transaction, with the reason [!allowed:] and the selector. *)
Theorem X2_selector_entries_must_be_canonical
    (tx : TransactionResponse) (rules : Rule) (l : list string) :
  asciiData (data tx) = true ->
  Forall (fun e => ~ canonicalSelector e) l ->
  (denySelectors rules = Some l ->
   matchRules tx rules = matchRules tx (setDeny rules None)) /\
  (allowSelectors rules = Some l -> l <> [] ->
   ok (matchRules tx rules) = false /\
   In ("!allowed:" ++ selOf tx) (reason (matchRules tx rules))).
Proof.
  intros H F. apply asciiData_nullish in H. split.
  - intros D. unfold matchRules, setDeny.
    cbn [minEth allowSelectors denySelectors watchRecipients].
    rewrite D, (selector_not_in l _ H F). reflexivity.
  - intros A N.
    apply (fires_rejects tx rules (allowCheck tx rules)).
    + unfold checks; simpl; auto.
    + unfold allowCheck, selOf; cbn [fires].
      rewrite A, (selector_not_in l _ H F).
      destruct l; [congruence | reflexivity].
Qed.

Lemma X2_selector_entries_must_be_canonical_witness :
  matchRules txApprove rulesUpperDeny = {| ok := true; reason := [] |} /\
  ok (matchRules txTransfer rulesUpperAllow) = false.
Proof.
  split.
  - destruct (X2_selector_entries_must_be_canonical
                txApprove rulesUpperDeny ["0x095EA7B3"]) as [D _].
    + vm_compute. reflexivity.
    + constructor; [|constructor]. intros [_ H]. discriminate H.
    + rewrite D; reflexivity.
  - destruct (X2_selector_entries_must_be_canonical
                txTransfer rulesUpperAllow ["0xA9059CBB"]) as [_ A].
    + vm_compute. reflexivity.
    + constructor; [|constructor]. intros [_ H]. discriminate H.
    + apply A; [reflexivity | discriminate].
Defined.

(** X3. The watch list has to be in lower case, as the comment on
    [watchRecipients] says: the recipient is lower-cased before the
    lookup and the entries are not.  A non-empty watch list none of
    whose entries is in lower case rejects every transaction, with the
    reason [!watched:to]. *)
Theorem X3_watch_entries_must_be_lower_case
    (tx : TransactionResponse) (rules : Rule) (watch : list string) :
  watchRecipients rules = Some watch ->
  watch <> [] ->
  Forall (fun e => JSString.toLowerCase e <> e) watch ->
  ok (matchRules tx rules) = false /\
  In "!watched:to" (reason (matchRules tx rules)).
Proof.
  intros W N F.
  apply (fires_rejects tx rules (watchCheck tx rules)).
  - unfold checks; simpl; auto.
  - unfold watchCheck; cbn [fires]. rewrite W.
    rewrite includes_none.
    + destruct watch; [congruence | reflexivity].
    + rewrite Forall_forall in *. intros e I E. apply (F e I).
      rewrite E. apply toLowerCase_idem.
Qed.

Lemma X3_watch_entries_must_be_lower_case_witness :
  ok (matchRules txTransfer rulesUpperWatch) = false /\
  In "!watched:to" (reason (matchRules txTransfer rulesUpperWatch)).
Proof.
  apply (X3_watch_entries_must_be_lower_case
           txTransfer rulesUpperWatch ["0xABC"]).
  - reflexivity.
  - discriminate.
  - constructor; [|constructor]. discriminate.
Defined.

(** X4. A transaction without a recipient (a contract creation) is
    looked up as the empty string: a non-empty watch list that does not
    hold the empty string rejects it, with the reason [!watched:to]. *)
Theorem X4_watch_rejects_contract_creation
    (tx : TransactionResponse) (rules : Rule) (watch : list string) :
  watchRecipients rules = Some watch ->
  watch <> [] ->
  ~ In EmptyString watch ->
  to tx = None ->
  ok (matchRules tx rules) = false /\
  In "!watched:to" (reason (matchRules tx rules)).
Proof.
  intros W N I T.
  apply (fires_rejects tx rules (watchCheck tx rules)).
  - unfold checks; simpl; auto.
  - unfold watchCheck; cbn [fires]. rewrite W, T.
    cbn [nullish JSString.toLowerCase].
    replace (JSString.includes watch EmptyString) with false.
    + destruct watch; [congruence | reflexivity].
    + symmetry. apply not_true_is_false. now rewrite includes_In.
Qed.

Lemma X4_watch_rejects_contract_creation_witness :
  ok (matchRules txCreate rulesWatch) = false /\
  In "!watched:to" (reason (matchRules txCreate rulesWatch)).
Proof.
  apply (X4_watch_rejects_contract_creation txCreate rulesWatch ["0xaaa"]).
  - reflexivity.
  - discriminate.
  - simpl. intros [E|[]]. discriminate E.
  - reflexivity.
Defined.

(** X5. A threshold that is falsy ([0], [-0] or [NaN]) is no threshold,
    and an empty list is no list: taking them out of a rule set changes
    the verdict of no transaction. *)
Theorem X5_falsy_threshold_and_empty_lists_are_unset
    (tx : TransactionResponse) (rules : Rule) :
  matchRules tx (normalizeRules rules) = matchRules tx rules.
Proof.
  unfold matchRules, normalizeRules.
  cbn [minEth allowSelectors denySelectors watchRecipients].
  destruct (minEth rules) as [m|], (allowSelectors rules) as [[|a al]|],
    (denySelectors rules) as [[|d de]|], (watchRecipients rules) as [[|w wa]|];
    try destruct (truthy m) eqn:T;
    cbn - [weiToEth toString selectorOf ltb JSString.toLowerCase String.eqb];
    rewrite ?T; reflexivity.
Qed.

(** X6. Denial is unconditional: a transaction whose selector is in the
    deny list is rejected with the reason [denied:] and the selector,
    whatever its value, its recipient and the other three categories
    of the rule set, the allow list included. *)
Theorem X6_deny_is_unconditional
    (tx : TransactionResponse) (rules : Rule) (deny : list string) :
  denySelectors rules = Some deny ->
  In (selOf tx) deny ->
  ok (matchRules tx rules) = false /\
  In ("denied:" ++ selOf tx) (reason (matchRules tx rules)).
Proof.
  intros D I.
  apply (fires_rejects tx rules (denyCheck tx rules)).
  - unfold checks; simpl; auto.
  - unfold denyCheck; cbn [fires]. rewrite D. now apply includes_In.
Qed.

Lemma X6_deny_is_unconditional_witness :
  ok (matchRules txApprove RULES) = false /\
  In "denied:0x095ea7b3" (reason (matchRules txApprove RULES)).
Proof.
  apply (X6_deny_is_unconditional txApprove RULES ["0x095ea7b3"]).
  - reflexivity.
  - left. reflexivity.
Defined.

(** X7. An allow list that the deny list covers lets nothing through:
    when [allowSelectors] is non-empty and each of its entries is also
    in [denySelectors], every transaction is rejected. *)
Theorem X7_allow_within_deny_rejects_all
    (tx : TransactionResponse) (rules : Rule) (allow deny : list string) :
  allowSelectors rules = Some allow ->
  denySelectors rules = Some deny ->
  allow <> [] ->
  incl allow deny ->
  ok (matchRules tx rules) = false.
Proof.
  intros A D N I.
  destruct (JSString.includes allow (selOf tx)) eqn:E.
  - apply includes_In in E.
    apply (fires_rejects tx rules (denyCheck tx rules)).
    + unfold checks; simpl; auto.
    + unfold denyCheck; cbn [fires]. rewrite D. apply includes_In. now apply I.
  - apply (fires_rejects tx rules (allowCheck tx rules)).
    + unfold checks; simpl; auto.
    + unfold allowCheck; cbn [fires]. rewrite A, E.
      destruct allow; [congruence | reflexivity].
Qed.

Lemma X7_allow_within_deny_rejects_all_witness :
  ok (matchRules txTransfer rulesAllowDenied) = false.
Proof.
  apply (X7_allow_within_deny_rejects_all
           txTransfer rulesAllowDenied
           ["0xa9059cbb"] ["0x095ea7b3"; "0xa9059cbb"]).
  - reflexivity.
  - reflexivity.
  - discriminate.
  - intros e [<-|[]]. right; left; reflexivity.
Defined.

(* ------------------------------------------------------------------ *)
(** ** Further properties: what a verdict depends on *)

(** X8. The verdict looks at a transaction through three things only:
    its value (0 when absent), the selector of its data ([0x] when
    absent) and its recipient in lower case (the empty string when
    absent).  Two transactions that agree on these three get the same
    verdict under every rule set, whatever their hash, sender and
    nonce and the rest of their data.  So do, in particular, two
    transactions whose data share their first 10 code units up to
    letter case and whose recipients differ by letter case only. *)
Theorem X8_verdict_ignores_case_and_tail (rules : Rule) :
  (forall tx tx' : TransactionResponse,
     nullish (value tx) 0 = nullish (value tx') 0 ->
     selOf tx = selOf tx' ->
     JSString.toLowerCase (nullish (to tx) EmptyString)
     = JSString.toLowerCase (nullish (to tx') EmptyString) ->
     matchRules tx rules = matchRules tx' rules) /\
  (forall (h h' : string) (f f' : option string) (n n' : number)
          (v : option Z) (pre pre' rest rest' t t' : string),
     String.length pre = 10%nat -> String.length pre' = 10%nat ->
     JSString.toLowerCase pre = JSString.toLowerCase pre' ->
     JSString.toLowerCase t = JSString.toLowerCase t' ->
     matchRules {| hash := h; from := f; to := Some t; value := v;
                   data := Some (pre ++ rest); nonce := n |} rules
     = matchRules {| hash := h'; from := f'; to := Some t'; value := v;
                     data := Some (pre' ++ rest'); nonce := n' |} rules).
Proof.
  split.
  - intros tx tx' V S T. unfold selOf in S. unfold matchRules.
    rewrite V, S, T. reflexivity.
  - intros h h' f f' n n' v pre pre' rest rest' t t' L L' E T.
    unfold matchRules. cbn [data value to nullish].
    rewrite !selectorOf_prefix by assumption. rewrite E, T. reflexivity.
Qed.

Lemma X8_verdict_ignores_case_and_tail_witness :
  matchRules txPlain rulesAll = matchRules txPlainBare rulesAll /\
  matchRules txCreate rulesAll = matchRules txCreateBare rulesAll /\
  matchRules {| hash := "0x1"; from := Some "0xdef"; to := Some "0xAAA";
                value := Some (10 ^ 18); data := Some ("0x095EA7B3" ++ "00");
                nonce := ofInteger 1 |} rulesAll
  = matchRules {| hash := "0x2"; from := None; to := Some "0xaaa";
                  value := Some (10 ^ 18);
                  data := Some ("0x095ea7b3" ++ "ffff"); nonce := ofInteger 2 |}
      rulesAll.
Proof.
  destruct (X8_verdict_ignores_case_and_tail rulesAll) as [G P].
  split; [|split].
  - apply G; reflexivity.
  - apply G; reflexivity.
  - apply P; reflexivity.
Defined.

Lemma value_message (tx : TransactionResponse) (rules : Rule) :
  exists r, message (valueCheck tx rules) = "value<" ++ r.
Proof.
  unfold valueCheck. destruct (minEth rules) as [m|]; cbn [message].
  - now exists (toString m).
  - now exists "undefined".
Qed.

(** X9. A verdict holds at most four reasons and never the same reason
    twice. *)
Theorem X9_reasons_distinct (tx : TransactionResponse) (rules : Rule) :
  NoDup (reason (matchRules tx rules)) /\
  (List.length (reason (matchRules tx rules)) <= 4)%nat.
Proof.
  rewrite matchRules_reason. unfold checks. cbn [filter].
  destruct (value_message tx rules) as [r V].
  destruct (fires (valueCheck tx rules)), (fires (allowCheck tx rules)),
    (fires (denyCheck tx rules)), (fires (watchCheck tx rules));
    cbn [map List.length]; rewrite ?V;
    unfold allowCheck, denyCheck, watchCheck; cbn [message];
    (split; [repeat constructor; simpl; intuition discriminate | lia]).
Qed.

(* ------------------------------------------------------------------ *)
(** ** Further properties: the value threshold *)

Lemma SFleb_ltb_trans (x y m : number) :
  SFleb x y = true -> SFltb y m = true -> SFltb x m = true.
Proof.
  unfold SFleb, SFltb, SFcompare.
  destruct x as [[]|[]| |[] mx ex], y as [[]|[]| |[] my ey],
    m as [[]|[]| |[] mm em]; intros H1 H2;
    try discriminate; try reflexivity;
    compare_cases; cbn [CompOpp] in *;
    try discriminate; try reflexivity; try lia.
Qed.

Lemma SFleb_not_ltb (a x : number) :
  SFleb a x = true -> SFltb x a = false.
Proof.
  unfold SFleb, SFltb, SFcompare.
  destruct a as [[]|[]| |[] ma ea], x as [[]|[]| |[] mx ex]; intros H1;
    try discriminate; try reflexivity;
    compare_cases; cbn [CompOpp] in *;
    try discriminate; try reflexivity; try lia.
Qed.

Lemma weiToEth_le (a b : Z) :
  0 <= a -> a <= b -> SFleb (weiToEth a) (weiToEth b) = true.
Proof.
  intros Ha Hab.
  destruct (Z.eq_dec a 0) as [->|N].
  - apply (weiToEth_range b). lia.
  - pose proof (intForm_mono a b ltac:(lia) ltac:(lia)) as L.
    destruct (intForm_canon a ltac:(lia)) as (Ca & Ea & Ma).
    destruct (intForm_canon b ltac:(lia)) as (Cb & Eb & Mb).
    pose proof (lex_units _ _ Ca Cb L Ea) as U.
    pose proof (weiToEth_range a ltac:(lia)) as [_ Ra].
    rewrite (weiToEth_pos b) by lia.
    destruct (Z.leb_spec (snd (intForm b)) (emax - prec)) as [Sb|Sb];
      [|exact Ra].
    rewrite (weiToEth_pos a) by lia.
    assert (Sa : snd (intForm a) <= emax - prec) by (unfold lex_le in L; lia).
    apply Z.leb_le in Sa. rewrite Sa.
    pose proof (pow2_gt0 (snd (intForm a) + 52) ltac:(lia)).
    pose proof (pow2_gt0 (snd (intForm b) + 52) ltac:(lia)).
    assert (2 ^ 52 <= units (intForm a)) by (unfold units; nia).
    assert (2 ^ 52 <= units (intForm b)) by (unfold units; nia).
    apply roundAt_mono; try lia.
    + apply quot_enough; [nia | apply is53_1e18].
    + apply quot_enough; [nia | apply is53_1e18].
    + nia.
Qed.

Lemma valueCheck_withValue (tx : TransactionResponse) (rules : Rule) (v' : Z) :
  0 <= nullish (value tx) 0 <= v' ->
  message (valueCheck (withValue tx v') rules) = message (valueCheck tx rules) /\
  (fires (valueCheck (withValue tx v') rules) = true ->
   fires (valueCheck tx rules) = true).
Proof.
  intros [H0 H1]. unfold valueCheck, ethOf, withValue; cbn [value nullish].
  destruct (minEth rules) as [m|]; cbn [fires message]; split; trivial.
  destruct (truthy m); cbn [andb]; [|trivial].
  unfold ltb. apply SFleb_ltb_trans. now apply weiToEth_le.
Qed.

(** X10. More value never hurts: raising the value of a transaction
    (a non-negative amount, taken as 0 when absent) adds no reason to
    its verdict, so an accepted transaction stays accepted, whatever
    the threshold and in spite of the two roundings of [weiToEth]. *)
Theorem X10_more_value_never_hurts
    (tx : TransactionResponse) (rules : Rule) (v' : Z) :
  0 <= nullish (value tx) 0 <= v' ->
  incl (reason (matchRules (withValue tx v') rules))
       (reason (matchRules tx rules)) /\
  (ok (matchRules tx rules) = true ->
   ok (matchRules (withValue tx v') rules) = true).
Proof.
  intros H. destruct (valueCheck_withValue tx rules v' H) as [M F].
  assert (A : allowCheck (withValue tx v') rules = allowCheck tx rules)
    by reflexivity.
  assert (D : denyCheck (withValue tx v') rules = denyCheck tx rules)
    by reflexivity.
  assert (W : watchCheck (withValue tx v') rules = watchCheck tx rules)
    by reflexivity.
  split.
  - rewrite !matchRules_reason. unfold checks. rewrite A, D, W.
    cbn [filter].
    destruct (fires (valueCheck (withValue tx v') rules)) eqn:E.
    + rewrite (F eq_refl). cbn [map]. rewrite M. apply incl_refl.
    + destruct (fires (valueCheck tx rules)); cbn [map];
        [apply incl_tl|]; apply incl_refl.
  - rewrite !matchRules_ok. unfold checks. rewrite A, D, W. cbn [forallb].
    destruct (fires (valueCheck (withValue tx v') rules)) eqn:E.
    + rewrite (F eq_refl). trivial.
    + destruct (fires (valueCheck tx rules)); cbn [negb andb];
        [discriminate | trivial].
Qed.

Lemma X10_more_value_never_hurts_witness :
  incl (reason (matchRules (withValue txAllFail (10 ^ 18)) rulesAll))
       (reason (matchRules txAllFail rulesAll)) /\
  ok (matchRules (withValue txTransfer (3 * 10 ^ 18)) RULES) = true.
Proof.
  split.
  - apply (X10_more_value_never_hurts txAllFail rulesAll (10 ^ 18)).
    split; apply Z.leb_le; vm_compute; reflexivity.
  - apply (X10_more_value_never_hurts txTransfer RULES (3 * 10 ^ 18)).
    + split; apply Z.leb_le; vm_compute; reflexivity.
    + vm_compute. reflexivity.
Defined.

Lemma threshold_exact :
  weiToEth threshold_0_5 = ofRatio 5 10 /\
  SFltb (weiToEth (threshold_0_5 - 1)) (ofRatio 5 10) = true.
Proof. split; vm_compute; reflexivity. Qed.

Lemma below_threshold (v : Z) :
  0 <= v -> ltb (weiToEth v) (ofRatio 5 10) = (v <? threshold_0_5).
Proof.
  intros H0. destruct threshold_exact as [E L]. unfold ltb.
  destruct (Z.ltb_spec v threshold_0_5) as [H|H].
  - apply (SFleb_ltb_trans _ (weiToEth (threshold_0_5 - 1))); [|exact L].
    apply weiToEth_le; lia.
  - apply SFleb_not_ltb. rewrite <- E. apply weiToEth_le; [|exact H].
    unfold threshold_0_5. lia.
Qed.

(** X11. Which transactions the watcher reports.  Under the built-in
    [RULES] a transaction of non-negative value (0 when absent) is
    accepted exactly when its value is at least 499999999999999968 wei
    and its selector is not [0x095ea7b3]; the handler then prints the
    one line of its alert, and prints nothing otherwise.  The bound is
    32 wei under half an ether: the amounts from there up to half an
    ether convert to [0.5] exactly. *)
Theorem X11_RULES_alerts (tx : TransactionResponse) (now : Z) :
  0 <= nullish (value tx) 0 ->
  ok (matchRules tx RULES)
  = (threshold_0_5 <=? nullish (value tx) 0) &&
    negb (String.eqb (selOf tx) "0x095ea7b3") /\
  onPending (Found tx) now
  = if (threshold_0_5 <=? nullish (value tx) 0) &&
       negb (String.eqb (selOf tx) "0x095ea7b3")
    then [JSON.stringify (alertOf tx now)] else [].
Proof.
  intros H.
  assert (O : ok (matchRules tx RULES)
              = (threshold_0_5 <=? nullish (value tx) 0) &&
                negb (String.eqb (selOf tx) "0x095ea7b3")).
  { rewrite matchRules_ok. unfold checks, valueCheck, allowCheck, denyCheck,
      watchCheck, RULES, ethOf.
    cbn [forallb fires minEth allowSelectors denySelectors watchRecipients
         nonEmpty List.length Nat.eqb negb andb].
    change (truthy (ofRatio 5 10)) with true. cbn [andb].
    rewrite (below_threshold _ H).
    unfold JSString.includes; cbn [existsb]. rewrite orb_false_r, !andb_true_r.
    f_equal. rewrite Z.leb_antisym. reflexivity. }
  split; [exact O|].
  unfold onPending, pendingAlert. rewrite O.
  destruct (_ && _); reflexivity.
Qed.

Lemma X11_RULES_alerts_witness :
  ok (matchRules txTransfer RULES) = true /\
  onPending (Found txTransfer) 1700000000123
  = [JSON.stringify (alertOf txTransfer 1700000000123)].
Proof.
  destruct (X11_RULES_alerts txTransfer 1700000000123) as [O P].
  - apply Z.leb_le. vm_compute. reflexivity.
  - split; [rewrite O | rewrite P]; reflexivity.
Defined.

(* ------------------------------------------------------------------ *)
(** ** Further properties: the accuracy of the conversion *)

Lemma RNE_half_low (a b : Z) : 0 < b -> 2 * a <= 2 * RNE a b * b + b.
Proof.
  intros Hb.
  pose proof (Z.div_mod a b ltac:(lia)) as D.
  pose proof (Z.mod_pos_bound a b Hb) as M.
  unfold RNE.
  destruct (Z.compare_spec (2 * (a mod b)) b) as [C|C|C];
    try destruct (Z.even (a / b)); nia.
Qed.

(** A normal result is within half a unit in the last place of the
    exact value: a relative error of at most [2^-53]. *)
Lemma nf_error (a b ex : Z) :
  0 <= a -> 0 < b -> enough a b ex -> -1074 < cexp a b ex ->
  2 ^ 53 * Z.abs (fst (nf a b ex) * 2 ^ (snd (nf a b ex) - ex) * b - a)
  <= fst (nf a b ex) * 2 ^ (snd (nf a b ex) - ex) * b.
Proof.
  intros Ha Hb En Nm.
  pose proof (cexp_ge a b ex En) as G.
  pose proof (shifted_ge a b ex Ha Hb En Nm) as Ge.
  unfold nf. set (e := cexp a b ex) in *.
  pose proof (pow2_gt0 (e - ex) ltac:(lia)) as Pn.
  assert (PB : 0 < b * 2 ^ (e - ex)) by nia.
  pose proof (RNE_bounds a (b * 2 ^ (e - ex))) as [RL _].
  pose proof (RNE_half a (b * 2 ^ (e - ex)) PB) as Hh.
  pose proof (RNE_half_low a (b * 2 ^ (e - ex)) PB) as Hl.
  set (R := RNE a (b * 2 ^ (e - ex))) in *.
  set (N := 2 ^ (e - ex)) in *.
  assert (V : fst (normal R e) * 2 ^ (snd (normal R e) - ex) = R * N).
  { unfold normal. destruct (Z.eqb_spec R (2 ^ 53)) as [E|E]; cbn [fst snd].
    - rewrite E. replace (e + 1 - ex) with ((e - ex) + 1) by lia.
      rewrite Z.pow_add_r by lia. fold N. change (2 ^ 53) with (2 ^ 52 * 2 ^ 1).
      ring.
    - reflexivity. }
  rewrite V.
  assert (P52 : 2 ^ 52 * (b * N) <= R * (b * N))
    by (apply Z.mul_le_mono_nonneg_r; lia).
  replace (R * N * b) with (R * (b * N)) by ring.
  replace (2 * R * (b * N)) with (2 * (R * (b * N))) in * by ring.
  set (P := R * (b * N)) in *. set (B := b * N) in *.
  change (2 ^ 53) with (2 * 2 ^ 52). lia.
Qed.

(** X12. The conversion neither fails nor drifts.  For an amount [w]
    with [0 < w < 2^1023] (every 256-bit amount is one) [weiToEth w] is
    a positive normal Number - not zero, not infinite, not [NaN] - and
    [m * 2^e * 10^18] differs from [w] by at most one part in [2^51] of
    itself, the two roundings together.  Both sides are written in
    units of [2^-112]. *)
Theorem X12_weiToEth_finite_and_accurate (w : Z) :
  0 < w < 2 ^ 1023 ->
  exists m e,
    weiToEth w = S754_finite false m e /\
    is53 m /\ -112 <= e /\
    2 ^ 51 * Z.abs (Z.pos m * 2 ^ (e + 112) * 10 ^ 18 - w * 2 ^ 112)
    <= Z.pos m * 2 ^ (e + 112) * 10 ^ 18.
Proof.
  intros [Hw Hlt].
  destruct (intForm_canon w Hw) as ((B & _ & _) & E & M).
  pose proof (int_enough w Hw) as En1.
  assert (C1 : cexp (w * 2 ^ 52) 1 (-52) = Zdigits2 w - 53 /\
               Zdigits2 w <= 1023 /\ 1 <= Zdigits2 w).
  { unfold cexp. rewrite Z.div_1_r, Zdigits2_pow_mul by lia.
    pose proof (Zdigits2_lt_pow w 1023 ltac:(lia) ltac:(lia)).
    pose proof (Zdigits2_ge_pow w 0 ltac:(lia) ltac:(simpl; lia)).
    rewrite fexp_eq. lia. }
  destruct C1 as (C1 & D1 & D0).
  assert (S : snd (intForm w) <= 971).
  { unfold intForm, nf. rewrite C1. unfold normal.
    destruct (_ =? _); cbn [snd]; lia. }
  pose proof (nf_error (w * 2 ^ 52) 1 (-52) ltac:(lia) ltac:(lia) En1
                ltac:(lia)) as Er1.
  fold (intForm w) in Er1.
  replace (snd (intForm w) - -52) with (snd (intForm w) + 52) in Er1 by lia.
  fold (units (intForm w)) in Er1.
  rewrite weiToEth_pos by assumption.
  replace (snd (intForm w) <=? emax - prec) with true
    by (symmetry; apply Z.leb_le; unfold emax, prec; lia).
  set (U := units (intForm w)) in *.
  assert (HU : 2 ^ 52 <= U < 2 ^ 1076).
  { unfold U, units.
    pose proof (pow2_gt0 (snd (intForm w) + 52) ltac:(lia)) as P.
    split; [nia|].
    assert (2 ^ (snd (intForm w) + 52) <= 2 ^ 1023)
      by (apply Z.pow_le_mono_r; lia).
    change (2 ^ 1076) with (2 ^ 53 * 2 ^ 1023). nia. }
  pose proof (quot_enough (U * 2 ^ 53) mant_1e18 (-112)
                ltac:(lia) is53_1e18) as En.
  pose proof (nf_inv (U * 2 ^ 53) (Z.pos mant_1e18) (-112)
                ltac:(lia) ltac:(lia) En) as (Bn & _ & Mn).
  pose proof (cexp_ge _ _ _ En) as G.
  pose proof (nf_error (U * 2 ^ 53) (Z.pos mant_1e18) (-112)
                ltac:(lia) ltac:(lia) En ltac:(lia)) as Er2.
  assert (Sn : -112 <= snd (nf (U * 2 ^ 53) (Z.pos mant_1e18) (-112)) <= 971).
  { unfold nf.
    assert (C : cexp (U * 2 ^ 53) (Z.pos mant_1e18) (-112) <= 913).
    { unfold cexp. rewrite fexp_eq.
      assert (Q : U * 2 ^ 53 / Z.pos mant_1e18 < 2 ^ 1077).
      { apply Z.div_lt_upper_bound; [lia|].
        pose proof is53_1e18 as I. unfold is53 in I.
        change (2 ^ 1077) with (2 ^ 1076 * 2 ^ 1) in *.
        change (2 ^ 53) with (2 ^ 1 * 2 ^ 52). nia. }
      assert (0 <= U * 2 ^ 53 / Z.pos mant_1e18) by (apply Z.div_pos; lia).
      pose proof (Zdigits2_lt_pow _ 1077 ltac:(lia) (conj H Q)). lia. }
    unfold normal. destruct (_ =? _); cbn [snd]; lia. }
  unfold roundAt, pack.
  destruct (nf (U * 2 ^ 53) (Z.pos mant_1e18) (-112)) as [m e];
    cbn [fst snd] in *.
  assert (Hm : 2 ^ 52 <= m) by (apply Mn; lia).
  destruct m as [|p|p]; try lia.
  replace (e <=? emax - prec) with true
    by (symmetry; apply Z.leb_le; unfold emax, prec; lia).
  exists p, e. split; [reflexivity|]. split; [unfold is53; lia|].
  split; [lia|].
  replace (e - -112) with (e + 112) in Er2 by lia.
  set (V := Z.pos p * 2 ^ (e + 112)) in *.
  rewrite Z.mul_1_r in Er1.
  change (10 ^ 18) with (Z.pos mant_1e18 * 2 ^ 7).
  change (2 ^ 112) with (2 ^ 52 * 2 ^ 53 * 2 ^ 7).
  unfold mant_1e18 in *.
  change (2 ^ 51) with 2251799813685248.
  change (2 ^ 53) with 9007199254740992 in *.
  change (2 ^ 52) with 4503599627370496 in *.
  change (2 ^ 7) with 128.
  lia.
Qed.

Lemma X12_weiToEth_finite_and_accurate_witness :
  exists m e,
    weiToEth (10 ^ 17) = S754_finite false m e /\
    is53 m /\ -112 <= e /\
    2 ^ 51 * Z.abs (Z.pos m * 2 ^ (e + 112) * 10 ^ 18 - 10 ^ 17 * 2 ^ 112)
    <= Z.pos m * 2 ^ (e + 112) * 10 ^ 18.
Proof.
  apply (X12_weiToEth_finite_and_accurate (10 ^ 17)).
  split; apply Z.ltb_lt; vm_compute; reflexivity.
Defined.

(* ------------------------------------------------------------------ *)
(** ** Further properties: the printed line *)

Lemma noC0_app (a b : string) :
  noC0 (a ++ b) = noC0 a && noC0 b.
Proof.
  induction a as [|c r IH]; simpl; [reflexivity|].
  now rewrite IH, andb_assoc.
Qed.

Lemma noC0_substring (s : string) :
  noC0 s = true -> forall n m, noC0 (substring n m s) = true.
Proof.
  induction s as [|c r IH]; intros H n m.
  - destruct n, m; reflexivity.
  - simpl in H. apply andb_true_iff in H. destruct H as [Hc Hr].
    destruct n as [|n]; simpl.
    + destruct m as [|m]; [reflexivity|]. simpl. now rewrite Hc, IH.
    + now apply IH.
Qed.

Lemma noC0_zeros (n : nat) : noC0 (zeros n) = true.
Proof. induction n; simpl; [reflexivity | exact IHn]. Qed.

Lemma noC0_digit (z : Z) :
  (32 <=? N_of_ascii (ascii_of_N (48 + Z.to_N (z mod 10))))%N = true.
Proof.
  pose proof (Z.mod_pos_bound z 10 ltac:(lia)) as B.
  assert (C : z mod 10 = 0 \/ z mod 10 = 1 \/ z mod 10 = 2 \/ z mod 10 = 3 \/
              z mod 10 = 4 \/ z mod 10 = 5 \/ z mod 10 = 6 \/ z mod 10 = 7 \/
              z mod 10 = 8 \/ z mod 10 = 9) by lia.
  repeat (destruct C as [-> | C]; [reflexivity|]). now rewrite C.
Qed.

Lemma noC0_digitsOf (fuel : nat) :
  forall z acc, noC0 acc = true -> noC0 (digitsOf fuel z acc) = true.
Proof.
  induction fuel as [|f IH]; intros z acc H; simpl; [exact H|].
  assert (A : noC0 (String (ascii_of_N (48 + Z.to_N (z mod 10))) acc)
              = true).
  { cbn [noC0]. now rewrite noC0_digit, H. }
  destruct (z <? 10); [exact A | now apply IH].
Qed.

Lemma noC0_decimal (z : Z) : noC0 (decimal z) = true.
Proof. unfold decimal. now apply noC0_digitsOf. Qed.

Lemma noC0_render (s n k : Z) : noC0 (render s n k) = true.
Proof.
  unfold render.
  destruct ((-5 <=? n) && (n <=? 21)); [destruct (k <=? n), (0 <? n) |
    destruct (n - 1 <? 0), (k =? 1)];
    repeat (rewrite ?noC0_app, ?noC0_decimal, ?noC0_zeros,
              ?noC0_substring by apply noC0_decimal;
            cbn [noC0 andb]);
    reflexivity.
Qed.

Lemma noC0_toString (x : number) : noC0 (toString x) = true.
Proof.
  destruct x as [s|[]| |[] m e]; try reflexivity; unfold toString, toStringPos;
    destruct (fraction m e) as [a b];
    destruct (shortest 17 _ a b 1) as [[[s n] k]|];
    rewrite ?noC0_app; cbn [noC0 andb]; apply noC0_render.
Qed.

Lemma noC0_quoteUnit (c : ascii) : noC0 (JSON.quoteUnit c) = true.
Proof. destruct c as [[] [] [] [] [] [] [] []]; reflexivity. Qed.

Lemma noC0_quote (s : string) : noC0 (JSON.quote s) = true.
Proof.
  unfold JSON.quote. cbn [noC0]. rewrite noC0_app.
  assert (Q : noC0 (JSON.quoteUnits s) = true).
  { induction s as [|c r IH]; simpl; [reflexivity|].
    now rewrite noC0_app, noC0_quoteUnit, IH. }
  rewrite Q. reflexivity.
Qed.

Lemma noC0_value (v : JSON.value) :
  noC0 (JSON.stringifyValue v) = true.
Proof.
  destruct v as [s|x]; simpl; [apply noC0_quote|].
  destruct (JSON.isFinite x); [apply noC0_toString | reflexivity].
Qed.

Lemma noC0_members (o : JSON.object) : noC0 (JSON.members o) = true.
Proof.
  induction o as [|[k v] rest IH]; [reflexivity|].
  cbn [JSON.members]. destruct rest as [|kv rest'].
  - now rewrite !noC0_app, noC0_quote, noC0_value.
  - rewrite !noC0_app, noC0_quote, noC0_value, IH. reflexivity.
Qed.

Lemma noC0_units (s : string) (c : ascii) :
  noC0 s = true -> In c (units_of s) -> (32 <= N_of_ascii c)%N.
Proof.
  induction s as [|d r IH]; simpl; intros H I; [contradiction|].
  apply andb_true_iff in H. destruct H as [Hd Hr].
  destruct I as [<-|I]; [now apply N.leb_le | now apply IH].
Qed.

(** X13. One notification, at most one line feed-delimited line:
    whatever the lookup came to and whatever strings the transaction
    holds (line feeds in its hash or addresses included), the handler
    prints at most one line, and no code unit of that line is below
    32.  In particular the line holds no line feed and no carriage
    return.  (Code units from 127 up, DEL and U+0085 among them, are
    printed as they are; nothing is said about them.) *)
Theorem X13_alert_is_one_line (r : Fetched) (now : Z) :
  (List.length (onPending r now) <= 1)%nat /\
  Forall (fun line =>
            noC0 line = true /\
            (forall c, In c (units_of line) -> (32 <= N_of_ascii c)%N) /\
            ~ In lineFeed (units_of line) /\
            ~ In carriageReturn (units_of line))
         (onPending r now).
Proof.
  unfold onPending. destruct (pendingAlert r now) as [alert|].
  - split; [simpl; lia|]. constructor; [|constructor].
    assert (N : noC0 (JSON.stringify alert) = true).
    { unfold JSON.stringify. cbn [append noC0].
      rewrite (noC0_app (JSON.members alert) "}"), noC0_members.
      reflexivity. }
    split; [exact N|]. split; [intros c; now apply noC0_units|].
    split; intros I; apply (noC0_units _ _ N) in I; vm_compute in I;
      now apply I.
  - split; [simpl; lia | constructor].
Qed.

Lemma X13_alert_is_one_line_witness :
  exists line : string,
    onPending (Found txLineFeed) 1700000000123 = [line] /\
    ~ In lineFeed (units_of line).
Proof.
  destruct (X13_alert_is_one_line (Found txLineFeed) 1700000000123) as [_ F].
  exists (JSON.stringify (alertOf txLineFeed 1700000000123)).
  assert (E : onPending (Found txLineFeed) 1700000000123
              = [JSON.stringify (alertOf txLineFeed 1700000000123)])
    by (vm_compute; reflexivity).
  split; [exact E|].
  rewrite E in F. inversion F as [|? ? (_ & _ & L & _) _]. exact L.
Defined.
